(** * squadron/service.py: actions, reactions and the [react] pass

    A shallow embedding of [src/squadron/service.py].  The documents the
    module works on are parsed JSON, so the embedding keeps them as JSON
    values and follows Python's dynamic behaviour on them: a membership
    test, a subscript or an iteration on a value of the wrong kind raises
    the exception Python raises.  External processes and [fnmatch] are
    supplied by a [Host]. *)

From Stdlib Require Import ZArith String Ascii List Bool Lia.
From stdpp Require Import base option list gmap strings.

Local Open Scope string_scope.
Local Open Scope Z_scope.
Local Open Scope list_scope.

(** ** Parsed JSON documents

    A Python [dict] is an association list whose keys are pairwise
    distinct; [dict_get] reads the first binding of a key.  Floating-point
    numbers do not occur in the documents of this module and are left
    out. *)

#[local] Unset Elimination Schemes.
Inductive json : Type :=
| JNull
| JBool (b : bool)
| JInt (z : Z)
| JStr (s : string)
| JArr (items : list json)
| JObj (fields : list (string * json)).
#[local] Set Elimination Schemes.

Definition pydict : Type := list (string * json).

Fixpoint dict_get (k : string) (d : pydict) : option json :=
  match d with
  | [] => None
  | (k', v) :: d' => if String.eqb k k' then Some v else dict_get k d'
  end.

Definition dict_has (k : string) (d : pydict) : bool :=
  match dict_get k d with Some _ => true | None => false end.

(** [d[k] = v]: the binding of [k] is replaced where it stands, a new key
    is added. *)
Fixpoint dict_set (k : string) (v : json) (d : pydict) : pydict :=
  match d with
  | [] => [(k, v)]
  | (k', v') :: d' =>
      if String.eqb k k' then (k, v) :: d' else (k', v') :: dict_set k v d'
  end.

(** ** Strings *)

(** [needle in hay] on two strings: [needle] occurs as a substring. *)
Fixpoint str_contains (needle hay : string) : bool :=
  String.prefix needle hay ||
  match hay with
  | EmptyString => false
  | String _ hay' => str_contains needle hay'
  end.

(** The characters [str.split()] separates on: [string.whitespace]. *)
Definition is_space (c : ascii) : bool :=
  let n := nat_of_ascii c in
  ((9 <=? n) && (n <=? 13))%nat || (n =? 32)%nat.

(** [s.split()]: the maximal runs of non-whitespace characters.  [cur] is
    the token being read, reversed. *)
Fixpoint split_aux (cur : list ascii) (s : string) : list string :=
  let flush (rest : list string) :=
    match cur with
    | [] => rest
    | _ => string_of_list_ascii (rev cur) :: rest
    end in
  match s with
  | EmptyString => flush []
  | String c s' =>
      if is_space c then flush (split_aux [] s') else split_aux (c :: cur) s'
  end.

Definition split (s : string) : list string := split_aux [] s.

(** The one-character strings of [s], what iterating a string yields. *)
Fixpoint chars (s : string) : list string :=
  match s with
  | EmptyString => []
  | String c s' => String c EmptyString :: chars s'
  end.

(** ** Exceptions and results *)

(** The three [ValueError] messages of the module, with the arguments of
    their [format] calls. *)
Inductive message : Type :=
| KeyInvalid (k service_name service_ver : string)
    (* 'Key {} in {} v{} is invalid, no dots allowed' *)
| WhenNeither
    (* 'When block with neither command nor files' *)
| ActionNotInList (action reaction : json).
    (* 'Action {} from reaction {} not in action list' *)

Inductive exn : Type :=
| ValueError (m : message)
| ValidationError                       (* jsonschema.ValidationError *)
| KeyError (k : string)
| TypeError
| AttributeError
| IndexError
| OSError
| CalledProcessError (returncode : Z) (cmd : list string).

Inductive result (A : Type) : Type :=
| Ok (a : A)
| Raise (e : exn).
Arguments Ok {A} a.
Arguments Raise {A} e.

Definition rbind {A B} (r : result A) (k : A -> result B) : result B :=
  match r with
  | Ok a => k a
  | Raise e => Raise e
  end.

Notation "'try' x <- r ; k" := (rbind r (fun x => k))
  (at level 10, x name, r at level 100, k at level 200).

(** ** Python operations on JSON values *)

(** [k in v] for a string [k]. *)
Definition py_in (k : string) (v : json) : result bool :=
  match v with
  | JObj d => Ok (dict_has k d)
  | JStr s => Ok (str_contains k s)
  | JArr l =>
      Ok (existsb (fun x => match x with JStr s => String.eqb k s | _ => false end) l)
  | _ => Raise TypeError
  end.

(** [v[k]] for a string [k]. *)
Definition py_getitem (v : json) (k : string) : result json :=
  match v with
  | JObj d =>
      match dict_get k d with
      | Some x => Ok x
      | None => Raise (KeyError k)
      end
  | _ => Raise TypeError
  end.

(** [for x in v]: the elements of a list, the characters of a string, the
    keys of a dict. *)
Definition py_iter (v : json) : result (list json) :=
  match v with
  | JArr l => Ok l
  | JStr s => Ok (map JStr (chars s))
  | JObj d => Ok (map (fun kv => JStr (fst kv)) d)
  | _ => Raise TypeError
  end.

Definition hashable (v : json) : bool :=
  match v with
  | JArr _ | JObj _ => false
  | _ => true
  end.

Definition as_str (v : json) : option string :=
  match v with JStr s => Some s | _ => None end.

(** [set(v)] as far as the module uses it: the set is only ever
    intersected with a set of strings, so its other (hashable) members
    are dropped. *)
Definition py_set (v : json) : result (gset string) :=
  try l <- py_iter v;
  if forallb hashable l then Ok (list_to_set (omap as_str l)) else Raise TypeError.

(** [n != v] negated, for an integer [n]: Python compares a bool as 0 or
    1, and an integer is never equal to a string, list, dict or None. *)
Definition py_eq_int (n : Z) (v : json) : bool :=
  match v with
  | JInt z => Z.eqb n z
  | JBool b => Z.eqb n (if b then 1 else 0)
  | _ => false
  end.

(** ** The schemas

    [jsonschema.validate] with the two schemas of the module, keyword by
    keyword (draft 4: [type], [properties], [required], [items],
    [minItems], [uniqueItems]; a property that is absent is not checked,
    an integer is not a bool).  A document is accepted when every keyword
    accepts it. *)

Definition is_str (v : json) : bool :=
  match v with JStr _ => true | _ => false end.

Definition is_integer (v : json) : bool :=
  match v with JInt _ => true | _ => false end.

Fixpoint unique (l : list string) : bool :=
  match l with
  | [] => true
  | x :: l' => negb (existsb (String.eqb x) l') && unique l'
  end.

(** [{'type': 'array', 'items': {'type': 'string'}, 'uniqueItems': True}],
    with [minItems] when [min] is not 0.  Uniqueness is decided on the
    strings: if an item is not a string the [items] keyword has already
    rejected the array. *)
Definition string_array (min : nat) (unique_items : bool) (v : json) : bool :=
  match v with
  | JArr l =>
      forallb is_str l
      && (min <=? length l)%nat
      && (negb unique_items || unique (omap as_str l))
  | _ => false
  end.

(** A property of an object: checked when present. *)
Definition property (k : string) (check : json -> bool) (d : pydict) : bool :=
  match dict_get k d with
  | Some x => check x
  | None => true
  end.

Definition _action_schema (v : json) : bool :=
  match v with
  | JObj d =>
      property "command" is_str d
      && property "not_after" (string_array 0 true) d
      && dict_has "command" d                      (* 'required': ['command'] *)
  | _ => false
  end.

Definition _when_schema (v : json) : bool :=
  match v with
  | JObj w =>
      property "command" is_str w
      && property "exitcode" is_integer w
      && property "files" (string_array 0 false) w
  | _ => false
  end.

Definition _reaction_item_schema (v : json) : bool :=
  match v with
  | JObj d =>
      property "execute" (string_array 1 true) d
      && property "when" _when_schema d
      && dict_has "execute" d                      (* 'required': ['execute'] *)
  | _ => false
  end.

Definition _reaction_schema (v : json) : bool :=
  match v with
  | JArr l => forallb _reaction_item_schema l
  | _ => false
  end.

Definition validate (v : json) (schema : json -> bool) : result unit :=
  if schema v then Ok tt else Raise ValidationError.

(** ** Building the catalog and the reaction list *)

(** The name a reference stands for: lines 86-89 and 114-117. *)
Definition qualify (service_name name : string) : string :=
  if negb (str_contains "." name) then service_name +:+ "." +:+ name else name.

Definition qualify_item (service_name : string) (v : json) : result json :=
  match v with
  | JStr s => Ok (JStr (qualify service_name s))
  | JArr l =>
      (* '.' in a list: membership of the string '.', never the case for
         the items of a validated document; the item is a list and has no
         '+' with a string *)
      if existsb (fun x => match x with JStr s => String.eqb "." s | _ => false end) l
      then Ok v else Raise TypeError
  | JObj d => if dict_has "." d then Ok v else Raise TypeError
  | _ => Raise TypeError
  end.

Fixpoint qualify_all (service_name : string) (l : list json) : result (list json) :=
  match l with
  | [] => Ok []
  | x :: l' =>
      try y <- qualify_item service_name x;
      try ys <- qualify_all service_name l';
      Ok (y :: ys)
  end.

(** The body of the loop of [get_service_actions] for one item [(k, v)]
    of the document: the entry it stores. *)
Definition service_action (service_name service_ver k : string) (v : json)
  : result (string * json) :=
  if str_contains "." k then
    Raise (ValueError (KeyInvalid k service_name service_ver))
  else
    try _ <- validate v _action_schema;
    try has <- py_in "not_after" v;
    try v' <-
      (if has then
         try na <- py_getitem v "not_after";
         try items <- py_iter na;
         try not_after <- qualify_all service_name items;
         match v with
         | JObj d => Ok (JObj (dict_set "not_after" (JArr not_after) d))
         | _ => Raise TypeError
         end
       else Ok v);
    Ok (service_name +:+ "." +:+ k, v').

Fixpoint service_actions_loop (service_name service_ver : string)
    (items : list (string * json)) (result_ : gmap string json)
  : result (gmap string json) :=
  match items with
  | [] => Ok result_
  | (k, v) :: items' =>
      try kv <- service_action service_name service_ver k v;
      service_actions_loop service_name service_ver items'
        (<[fst kv := snd kv]> result_)
  end.

(** [get_service_actions], from the document [get_service_json] returned.
    The items are visited in the order of the association list. *)
Definition get_service_actions (service_name service_ver : string)
    (action_desc : json) : result (gmap string json) :=
  match action_desc with
  | JObj items => service_actions_loop service_name service_ver items ∅
  | _ => Raise AttributeError                      (* no .items() *)
  end.

Definition qualify_reaction (service_name : string) (reaction : json) : result json :=
  try ex <- py_getitem reaction "execute";
  try items <- py_iter ex;
  try actions <- qualify_all service_name items;
  match reaction with
  | JObj d => Ok (JObj (dict_set "execute" (JArr actions) d))
  | _ => Raise TypeError
  end.

Fixpoint reactions_loop (service_name : string) (l : list json) : result (list json) :=
  match l with
  | [] => Ok []
  | r :: l' =>
      try r' <- qualify_reaction service_name r;
      try rs <- reactions_loop service_name l';
      Ok (r' :: rs)
  end.

(** [get_reactions], from the document [get_service_json] returned. *)
Definition get_reactions (service_name : string) (reactions_desc : json)
  : result (list json) :=
  try _ <- validate reactions_desc _reaction_schema;
  try l <- py_iter reactions_desc;
  reactions_loop service_name l.

(** ** What the builders hand over

    The shape of an action of the catalog and of a reaction of the list:
    the schemas without [uniqueItems] and [minItems], which the lists
    need not meet any more once their names are qualified. *)

Definition built_action (item : json) : bool :=
  match item with
  | JObj d =>
      property "command" is_str d
      && property "not_after" (string_array 0 false) d
      && dict_has "command" d
  | _ => false
  end.

Definition built_reaction (reaction : json) : bool :=
  match reaction with
  | JObj d =>
      property "execute" (string_array 0 false) d
      && property "when" _when_schema d
      && dict_has "execute" d
  | _ => false
  end.


(** ** The host: processes and file patterns *)

(** What [react] takes from outside the module.  [spawn w argv] starts
    the program [argv] in the world [w] and waits for it: the world after,
    and the exit status, or [None] when the program could not be started.
    [fnmatch name pat] is the match [fnmatch.filter] keeps a name by. *)
Class Host : Type := {
  world : Type;
  spawn : world -> list string -> world * option Z;
  fnmatch : string -> string -> bool
}.

(** What the pass did, in order.  [EvCall] is a [subprocess.call] of a
    trigger, [EvCheckCall] the [subprocess.check_call] of the action
    named, both with the arguments the process was given and how the call
    ended; [EvPrint] is the line the pass prints,
    'Command {} errored with code {}'. *)
Inductive event : Type :=
| EvCall (argv : list string) (r : result Z)
| EvCheckCall (action : string) (argv : list string) (r : result Z)
| EvPrint (command : string) (returncode : Z).

Section React.
Context {H : Host}.

Record state : Type := State {
  st_world : world;
  done_actions : gset string;
  st_trace : list event
}.

(** Computations of the pass: they read and change the state and end
    normally or with an exception; the state an exception leaves is
    kept. *)
Definition M (A : Type) : Type := state -> state * result A.

Definition ret {A} (a : A) : M A := fun st => (st, Ok a).
Definition raise {A} (e : exn) : M A := fun st => (st, Raise e).
Definition lift {A} (r : result A) : M A := fun st => (st, r).
Definition bind {A B} (m : M A) (k : A -> M B) : M B :=
  fun st =>
    match m st with
    | (st', Ok a) => k a st'
    | (st', Raise e) => (st', Raise e)
    end.

Notation "'do' x <- m ; k" := (bind m (fun x => k))
  (at level 10, x name, m at level 100, k at level 200).

Definition log (ev : event) : M unit :=
  fun st => (State (st_world st) (done_actions st) (st_trace st ++ [ev]), Ok tt).

(** [Popen] with [shell=False]: a string is the program, with no
    arguments; anything else is turned into a list. *)
Definition popen_args (args : json) : result (list string) :=
  match args with
  | JStr s => Ok [s]
  | _ =>
      try l <- py_iter args;
      if forallb is_str l then Ok (omap as_str l) else Raise TypeError
  end.

(** Start [argv] and wait: [args[0]] is the program, and there is none in
    an empty list. *)
Definition popen (argv : list string) : M (result Z) :=
  fun st =>
    match argv with
    | [] => (st, Ok (Raise IndexError))
    | _ =>
        let (w', status) := spawn (st_world st) argv in
        (State w' (done_actions st) (st_trace st),
         Ok (match status with Some z => Ok z | None => Raise OSError end))
    end.

(** [subprocess.call(args)] *)
Definition call (args : json) : M Z :=
  do argv <- lift (popen_args args);
  do r <- popen argv;
  do _ <- log (EvCall argv r);
  lift r.

(** [subprocess.check_call(argv)], for the action [action] *)
Definition check_call (action : string) (argv : list string) : M unit :=
  do r <- popen argv;
  do _ <- log (EvCheckCall action argv r);
  do retcode <- lift r;
  if Z.eqb retcode 0 then ret tt else raise (CalledProcessError retcode argv).

Definition fnmatch_filter (names : list string) (pat : string) : list string :=
  filter (fun name => fnmatch name pat = true) names.

Fixpoint checkfiles_loop (filepatterns : list json) (paths_changed : list string)
  : result bool :=
  match filepatterns with
  | [] => Ok false
  | JStr pattern :: rest =>
      match fnmatch_filter paths_changed pattern with
      | [] => checkfiles_loop rest paths_changed
      | _ => Ok true
      end
  | _ :: _ => Raise TypeError
  end.

Definition _checkfiles (filepatterns : json) (paths_changed : list string)
  : result bool :=
  try l <- py_iter filepatterns;
  checkfiles_loop l paths_changed.

(** Lines 153-165: [true] when the actions of the reaction are to be run,
    [false] at a [continue]. *)
Definition trigger (reaction : json) (paths_changed : list string) : M bool :=
  do has_when <- lift (py_in "when" reaction);
  if has_when : bool then
    do when <- lift (py_getitem reaction "when");
    do has_command <- lift (py_in "command" when);
    if has_command : bool then
      do command <- lift (py_getitem when "command");
      do exitcode <- lift (py_getitem when "exitcode");
      do r <- call command;
      ret (py_eq_int r exitcode)
    else
      do has_files <- lift (py_in "files" when);
      if has_files : bool then
        do files <- lift (py_getitem when "files");
        lift (_checkfiles files paths_changed)
      else raise (ValueError WhenNeither)
  else ret true.

(** [action in actions], and [actions[action]] with the key: a list or a
    dict is not hashable, and a key of the catalog is a string. *)
Definition find_action (actions : gmap string json) (action : json)
  : result (option (string * json)) :=
  match action with
  | JStr name =>
      Ok (match actions !! name with
          | Some item => Some (name, item)
          | None => None
          end)
  | JArr _ | JObj _ => Raise TypeError
  | _ => Ok None
  end.

Definition add_done (name : string) : M unit :=
  fun st => (State (st_world st) (done_actions st ∪ {[name]}) (st_trace st), Ok tt).

Definition get_done : M (gset string) := fun st => (st, Ok (done_actions st)).

Definition as_command (command : json) : result string :=
  match command with
  | JStr s => Ok s
  | _ => Raise AttributeError                     (* no .split() *)
  end.

(** Lines 172-175: the set [not_after] of an action. *)
Definition not_after_of (action_item : json) : result (gset string) :=
  try has <- py_in "not_after" action_item;
  if has : bool then
    try na <- py_getitem action_item "not_after";
    py_set na
  else Ok ∅.

(** Lines 169-190: the body of the loop over [reaction['execute']]. *)
Definition react_action (actions : gmap string json) (reaction action : json)
  : M unit :=
  do found <- lift (find_action actions action);
  match found with
  | Some (name, action_item) =>
      do done_ <- get_done;
      if decide (name ∉ done_) then
        do not_after <- lift (not_after_of action_item);
        if (size (done_ ∩ not_after) =? 0)%nat then
          do command <- lift (py_getitem action_item "command");
          do c <- lift (as_command command);
          fun st =>
            match check_call name (split c) st with
            | (st', Ok _) => add_done name st'
            | (st', Raise (CalledProcessError returncode cmd)) =>
                bind (log (EvPrint c returncode))
                  (fun _ => raise (CalledProcessError returncode cmd)) st'
            | (st', Raise e) => (st', Raise e)
            end
        else ret tt
      else ret tt
  | None => raise (ValueError (ActionNotInList action reaction))
  end.

Fixpoint execute_loop (actions : gmap string json) (reaction : json)
    (execute : list json) : M unit :=
  match execute with
  | [] => ret tt
  | action :: rest =>
      do _ <- react_action actions reaction action;
      execute_loop actions reaction rest
  end.

(** The body of the loop over [reactions]. *)
Definition react_reaction (actions : gmap string json) (paths_changed : list string)
    (reaction : json) : M unit :=
  do fires <- trigger reaction paths_changed;
  if fires : bool then
    do ex <- lift (py_getitem reaction "execute");
    do execute <- lift (py_iter ex);
    execute_loop actions reaction execute
  else ret tt.

Fixpoint react_loop (actions : gmap string json) (paths_changed : list string)
    (reactions : list json) : M unit :=
  match reactions with
  | [] => ret tt
  | reaction :: rest =>
      do _ <- react_reaction actions paths_changed reaction;
      react_loop actions paths_changed rest
  end.

Definition init (w : world) : state := State w ∅ [].

(** [react(actions, reactions, paths_changed)], started in the world [w]:
    the state it ends in and how it ends. *)
Definition react (actions : gmap string json) (reactions : list json)
    (paths_changed : list string) (w : world) : state * result unit :=
  react_loop actions paths_changed reactions (init w).

End React.

(** ** Reading a pass *)

(** [reaction['execute']], as the pass goes through it. *)
Definition execute_of (reaction : json) : result (list json) :=
  try ex <- py_getitem reaction "execute";
  py_iter ex.

(** The actions whose command the pass invoked, in order. *)
Definition executed (tr : list event) : list string :=
  omap (fun ev => match ev with EvCheckCall a _ _ => Some a | _ => None end) tr.

(** Every [check_call] recorded in [tr] that ran to an exit status
    exited with 0. *)
Definition all_succeeded (tr : list event) : Prop :=
  ∀ a argv z, EvCheckCall a argv (Ok z) ∈ tr → z = 0.

(** The references of a reaction list, in the order the pass would go
    through them if every reaction fired. *)
Definition declared (reactions : list json) : list string :=
  flat_map (fun reaction =>
              match execute_of reaction with
              | Ok execute => omap as_str execute
              | Raise _ => []
              end) reactions.

Section Pass.
Context {H : Host}.

(** [hoare P m Q E]: from a state in [P], [m] ends normally in a state in
    [Q] or with an exception [e] in a state with [E _ e]. *)
Definition hoare {A} (P : state → Prop) (m : M A)
    (Q : A → state → Prop) (E : state → exn → Prop) : Prop :=
  ∀ st st' r, P st → m st = (st', r) →
    match r with
    | Ok a => Q a st'
    | Raise e => E st' e
    end.

(** How [react_action] can end from the state [st]. *)
Inductive action_outcome (actions : gmap string json) (action : json) (st : state)
  : state → result unit → Prop :=
| ao_idle r :
    (* nothing was run: a skip, or an exception before the call *)
    action_outcome actions action st st r
| ao_call name item na c w' r :
    action = JStr name →
    actions !! name = Some item →
    name ∉ done_actions st →
    not_after_of item = Ok na →
    done_actions st ∩ na = ∅ →
    py_getitem item "command" = Ok (JStr c) →
    popen (split c) st = (State w' (done_actions st) (st_trace st), Ok r) →
    action_outcome actions action st
      (match r with
       | Ok 0 =>
           State w' (done_actions st ∪ {[name]})
             (st_trace st ++ [EvCheckCall name (split c) r])
       | Ok z =>
           State w' (done_actions st)
             (st_trace st ++ [EvCheckCall name (split c) r; EvPrint c z])
       | Raise _ =>
           State w' (done_actions st)
             (st_trace st ++ [EvCheckCall name (split c) r])
       end)
      (match r with
       | Ok 0 => Ok tt
       | Ok z => Raise (CalledProcessError z (split c))
       | Raise e => Raise e
       end).

(** The pass over [pre ++ reaction :: _] has come, without an exception,
    to the reference [action] of [reaction], after the references [xs]
    and before [ys], and is in the state [st]. *)
Definition reaches (actions : gmap string json) (paths_changed : list string)
    (w : world) (pre : list json) (reaction : json) (xs : list json)
    (action : json) (ys : list json) (st : state) : Prop :=
  execute_of reaction = Ok (xs ++ action :: ys) ∧
  ∃ st0 st1,
    react_loop actions paths_changed pre (init w) = (st0, Ok tt) ∧
    trigger reaction paths_changed st0 = (st1, Ok true) ∧
    execute_loop actions reaction xs st1 = (st, Ok tt).

(** What has been invoked is in [done_actions], and was invoked once. *)
Definition once (st : state) : Prop :=
  NoDup (executed (st_trace st)) ∧
  ∀ a, a ∈ executed (st_trace st) → a ∈ done_actions st.

(** The pass ended with the exception [e] because the command of an
    action exited with a status other than 0: the call is the last one
    recorded, the line printed after it names the command and the status,
    and the action is not in [done_actions]. *)
Definition failed_at (actions : gmap string json) (st : state) (e : exn) : Prop :=
  ∃ pre name item c z,
    z ≠ 0 ∧
    all_succeeded pre ∧
    st_trace st = pre ++ [EvCheckCall name (split c) (Ok z); EvPrint c z] ∧
    actions !! name = Some item ∧
    py_getitem item "command" = Ok (JStr c) ∧
    e = CalledProcessError z (split c) ∧
    name ∉ done_actions st.

(** Since the state [st0], [done_actions] has only grown and the action
    [name] has not been invoked. *)
Definition not_since (st0 : state) (name : string) (st : state) : Prop :=
  done_actions st0 ⊆ done_actions st ∧
  ∃ tl, st_trace st = st_trace st0 ++ tl ∧ name ∉ executed tl.

(** What has been recorded stays: the trace still starts with [tr0]. *)
Definition extends (tr0 : list event) (st : state) : Prop :=
  ∃ tl, st_trace st = tr0 ++ tl.

(** The reaction fires without running a probe: it has no [when], or
    one of its file patterns matches. *)
Definition fires_quietly (reaction : json) (paths_changed : list string) : Prop :=
  ∀ st, trigger reaction paths_changed st = (st, Ok true).

(** Nothing has failed so far: [done_actions] is the set of the actions
    invoked, each has exited with 0, and no line was printed. *)
Definition all_done (st : state) : Prop :=
  done_actions st = list_to_set (executed (st_trace st)) ∧
  (∀ a argv r, EvCheckCall a argv r ∈ st_trace st → r = Ok 0) ∧
  (∀ c z, EvPrint c z ∉ st_trace st).


(** Since the state [st0], [done_actions] and the trace have only
    grown. *)
Definition grown_from (st0 st : state) : Prop :=
  done_actions st0 ⊆ done_actions st ∧ extends (st_trace st0) st.

(** [P] is kept by every step of a pass over the catalog [actions], and
    [E] holds where a step raises: the three ways a step can change the
    state are an exception, a trigger, and a reference of an [execute]
    list. *)
Record pass_invariant (actions : gmap string json)
    (P : state → Prop) (E : state → exn → Prop) : Prop := {
  inv_raise : ∀ st e, P st → E st e;
  inv_trigger : ∀ st st',
    P st → done_actions st' = done_actions st →
    (st_trace st' = st_trace st ∨
     ∃ argv x, st_trace st' = st_trace st ++ [EvCall argv x]) →
    P st';
  inv_action : ∀ action st st' r,
    P st → action_outcome actions action st st' r →
    match r with
    | Ok _ => P st'
    | Raise e => E st' e
    end
}.

End Pass.

(** ** Sample data *)

(** A host for trying the pass: the world counts the processes started;
    the program [false] exits with 1, the program [nowhere] cannot be
    started, every other program exits with 0; a pattern matches the name
    equal to it. *)
Definition sample_host : Host := {|
  world := nat;
  spawn := fun n argv =>
    (S n,
     match argv with
     | "false" :: _ => Some 1
     | "nowhere" :: _ => None
     | _ => Some 0
     end);
  fnmatch := String.eqb
|}.

Definition sample_actions : gmap string json :=
  <["svc.build" := JObj [("command", JStr "make")]]>
  (<["svc.deploy" := JObj [("command", JStr "make deploy");
                          ("not_after", JArr [JStr "svc.rollback"])]]>
  (<["svc.rollback" := JObj [("command", JStr "make rollback")]]>
  (<["svc.check" := JObj [("command", JStr "false")]]> ∅))).

(** Two reactions without a trigger; the second action of the first one
    fails. *)
Definition failing_reactions : list json :=
  [JObj [("execute", JArr [JStr "svc.build"; JStr "svc.check"; JStr "svc.deploy"])];
   JObj [("execute", JArr [JStr "svc.rollback"])]].

(** An action that is not to run after another, and a reaction list that
    comes back to it. *)
Definition exclusive_actions : gmap string json :=
  <["svc.a" := JObj [("command", JStr "run a"); ("not_after", JArr [JStr "svc.b"])]]>
  (<["svc.b" := JObj [("command", JStr "run b")]]> ∅).

Definition revisit_reactions : list json :=
  [JObj [("execute", JArr [JStr "svc.a"; JStr "svc.b"])];
   JObj [("execute", JArr [JStr "svc.a"])]].

(** A reaction document whose [when] has nothing in it. *)
Definition neither_doc : json :=
  JArr [JObj [("execute", JArr [JStr "build"]); ("when", JObj [])]].

(** A reaction whose trigger is a probe with arguments. *)
Definition probe_reaction : json :=
  JObj [("execute", JArr [JStr "svc.build"]);
        ("when", JObj [("command", JStr "test -f x"); ("exitcode", JInt 0)])].

(** Actions that cannot run: a program that is nowhere, and a command of
    blanks. *)
Definition odd_actions : gmap string json :=
  <["svc.ghost" := JObj [("command", JStr "nowhere --now")]]>
  (<["svc.blank" := JObj [("command", JStr "   ")]]> ∅).

(** * Properties *)

Section Monad.
Context {H : Host}.

Lemma bind_ok {A B} (m : M A) (k : A → M B) st st' a :
  m st = (st', Ok a) → bind m k st = k a st'.
Proof. intros Hm. unfold bind. by rewrite Hm. Qed.

Lemma bind_raise {A B} (m : M A) (k : A → M B) st st' e :
  m st = (st', Raise e) → bind m k st = (st', Raise e).
Proof. intros Hm. unfold bind. by rewrite Hm. Qed.

Lemma bind_inv {A B} (m : M A) (k : A → M B) st st2 r :
  bind m k st = (st2, r) →
  (∃ st1 a, m st = (st1, Ok a) ∧ k a st1 = (st2, r)) ∨
  (∃ e, m st = (st2, Raise e) ∧ r = Raise e).
Proof.
  unfold bind. destruct (m st) as [st1 [a|e]]; intros Hk.
  - left. eauto.
  - right. inversion Hk; subst. eauto.
Qed.

Lemma lift_inv {A} (x : result A) st st' r :
  lift x st = (st', r) → st' = st ∧ r = x.
Proof. unfold lift. by inversion 1. Qed.

Lemma hoare_bind {A B} P (m : M A) (k : A → M B) Q R E :
  hoare P m Q E → (∀ a, hoare (Q a) (k a) R E) → hoare P (bind m k) R E.
Proof.
  intros Hm Hk st st' r HP Hrun.
  apply bind_inv in Hrun as [(st1 & a & Hm1 & Hk1)|(e & Hm1 & ->)].
  - specialize (Hm _ _ _ HP Hm1). simpl in Hm. exact (Hk a _ _ _ Hm Hk1).
  - exact (Hm _ _ _ HP Hm1).
Qed.

Lemma hoare_ret {A} (P : state → Prop) (a : A) E :
  hoare P (ret a) (fun _ => P) E.
Proof. intros st st' r HP Hrun. unfold ret in Hrun. by inversion Hrun; subst. Qed.

Lemma hoare_lift {A} (P : state → Prop) (x : result A) (E : state → exn → Prop) :
  (∀ st e, P st → E st e) → hoare P (lift x) (fun _ => P) E.
Proof.
  intros HE st st' r HP Hrun. apply lift_inv in Hrun as [-> ->].
  destruct x; auto.
Qed.

End Monad.

Section Steps.
Context {H : Host}.

Lemma popen_inv argv st st' r :
  popen argv st = (st', r) →
  ∃ w' x, st' = State w' (done_actions st) (st_trace st) ∧ r = Ok x ∧
    ((∃ z, x = Ok z) ∨ x = Raise IndexError ∨ x = Raise OSError).
Proof.
  unfold popen. destruct argv as [|a argv].
  - intros [= <- <-]. destruct st; eauto 10.
  - destruct (spawn _ _) as [w' [z|]]; intros [= <- <-]; eauto 10.
Qed.

(** A trigger leaves [done_actions] alone and records at most one
    [subprocess.call]. *)
Lemma trigger_outcome reaction paths st st' r :
  trigger reaction paths st = (st', r) →
  done_actions st' = done_actions st ∧
  (st_trace st' = st_trace st ∨
   ∃ argv x, st_trace st' = st_trace st ++ [EvCall argv x]).
Proof.
  unfold trigger. intros Hrun.
  repeat match type of Hrun with
  | bind (lift _) _ _ = _ =>
      apply bind_inv in Hrun as [(? & ? & [-> ?]%lift_inv & Hrun)|(? & [-> ?]%lift_inv & ?)];
      [|by auto]
  | (if ?b then _ else _) _ = _ => destruct b
  | lift _ _ = _ => apply lift_inv in Hrun as [-> ?]; by auto
  | ret _ _ = _ => inversion Hrun; subst; by auto
  | raise _ _ = _ => inversion Hrun; subst; by auto
  end.
  unfold call in Hrun.
  apply bind_inv in Hrun as [(st1 & z & Hcall & Hret)|(e & Hcall & ->)].
  - inversion Hret; subst; clear Hret.
    apply bind_inv in Hcall as [(? & argv & [-> ?]%lift_inv & Hcall)|(? & [-> ?]%lift_inv & ?)];
      [|done].
    apply bind_inv in Hcall as [(st2 & x & Hp & Hcall)|(? & Hp & ?)];
      [|apply popen_inv in Hp as (? & ? & ? & ? & ?); done].
    apply popen_inv in Hp as (w' & x' & -> & [= <-] & _).
    unfold bind, log, lift in Hcall. simpl in Hcall.
    destruct x; inversion Hcall; subst; simpl; eauto.
  - apply bind_inv in Hcall as [(? & argv & [-> ?]%lift_inv & Hcall)|(? & [-> ?]%lift_inv & ?)];
      [|by auto].
    apply bind_inv in Hcall as [(st2 & x & Hp & Hcall)|(? & Hp & ?)];
      [|apply popen_inv in Hp as (? & ? & ? & ? & ?); done].
    apply popen_inv in Hp as (w' & x' & -> & [= <-] & _).
    unfold bind, log, lift in Hcall. simpl in Hcall.
    destruct x; inversion Hcall; subst; simpl; eauto.
Qed.

Lemma size_inter_zero (X Y : gset string) :
  (size (X ∩ Y) =? 0)%nat = true ↔ X ∩ Y = ∅.
Proof.
  rewrite Nat.eqb_eq. split.
  - intros Hs. by apply size_empty_inv, leibniz_equiv in Hs.
  - intros ->. apply size_empty.
Qed.

(** Every way [react_action] can end is one of [action_outcome]. *)
Lemma react_action_outcome actions reaction action st st' r :
  react_action actions reaction action st = (st', r) →
  action_outcome actions action st st' r.
Proof.
  unfold react_action. intros Hrun.
  apply bind_inv in Hrun as [(? & found & [-> Hfind]%lift_inv & Hrun)|(? & [-> ?]%lift_inv & ->)];
    [|constructor].
  destruct found as [[name item]|]; [|inversion Hrun; subst; constructor].
  assert (action = JStr name ∧ actions !! name = Some item) as [-> Hitem].
  { symmetry in Hfind. destruct action; simpl in Hfind; try done.
    destruct (actions !! s) eqn:E; by simplify_eq. }
  apply bind_inv in Hrun as [(? & d & Hd & Hrun)|(? & Hd & ?)]; [|by inversion Hd].
  unfold get_done in Hd. injection Hd as <- <-.
  destruct (decide (name ∉ done_actions st)) as [Hnot|]; [|inversion Hrun; subst; constructor].
  apply bind_inv in Hrun as [(? & na & [-> Hna]%lift_inv & Hrun)|(? & [-> ?]%lift_inv & ->)];
    [|constructor].
  destruct (size (done_actions st ∩ na) =? 0)%nat eqn:Hsz;
    [|inversion Hrun; subst; constructor].
  apply size_inter_zero in Hsz.
  apply bind_inv in Hrun as [(? & cmd & [-> Hcmd]%lift_inv & Hrun)|(? & [-> ?]%lift_inv & ->)];
    [|constructor].
  apply bind_inv in Hrun as [(? & c & [-> Hc]%lift_inv & Hrun)|(? & [-> ?]%lift_inv & ->)];
    [|constructor].
  assert (cmd = JStr c) as -> by (destruct cmd; simpl in Hc; by simplify_eq).
  unfold check_call, bind in Hrun.
  destruct (popen (split c) st) as [st1 x] eqn:Hp.
  destruct (popen_inv _ _ _ _ Hp) as (w' & x' & -> & -> & Hx).
  unfold log, lift, ret, raise, add_done in Hrun. simpl in Hrun.
  pose proof (ao_call actions (JStr name) st name item na c w' x'
                eq_refl Hitem Hnot (eq_sym Hna) Hsz (eq_sym Hcmd) Hp) as Hout.
  destruct x' as [z|e]; simpl in Hrun.
  - destruct (Z.eqb_spec z 0) as [->|Hz]; simpl in Hrun.
    + injection Hrun as <- <-. exact Hout.
    + rewrite <- app_assoc in Hrun. injection Hrun as <- <-.
      destruct z; try done; exact Hout.
  - destruct Hx as [[z ?]|[[= ->]|[= ->]]]; [done|..];
      injection Hrun as <- <-; exact Hout.
Qed.

(** A reference to an action whose [not_after] set meets
    [done_actions] is passed over. *)
Lemma react_action_skips actions reaction name item na st :
  actions !! name = Some item →
  not_after_of item = Ok na →
  (size (done_actions st ∩ na) =? 0)%nat = false →
  react_action actions reaction (JStr name) st = (st, Ok tt).
Proof.
  intros Hitem Hna Hblocked.
  unfold react_action, bind, lift, get_done. simpl. rewrite Hitem.
  destruct (decide (name ∉ done_actions st)); [|reflexivity].
  rewrite Hna, Hblocked. reflexivity.
Qed.

(** A reaction that fires without a probe and has one reference. *)
Lemma react_reaction_single actions paths reaction action st :
  fires_quietly reaction paths →
  execute_of reaction = Ok [action] →
  react_reaction actions paths reaction st =
  bind (react_action actions reaction action) (fun _ => ret tt) st.
Proof.
  intros Hf Hex. unfold react_reaction, execute_of, rbind in *.
  rewrite (bind_ok _ _ _ _ _ (Hf st)).
  destruct (py_getitem reaction "execute") as [ex|]; [|done].
  unfold bind at 1, lift at 1. unfold bind at 1, lift at 1. rewrite Hex.
  reflexivity.
Qed.

Lemma execute_loop_app actions reaction xs ys st :
  execute_loop actions reaction (xs ++ ys) st =
  bind (execute_loop actions reaction xs)
       (fun _ => execute_loop actions reaction ys) st.
Proof.
  revert st. induction xs as [|x xs IH]; intros st; simpl; [done|].
  unfold bind in *. destruct (react_action _ _ _ _) as [st1 [[]|e]]; [|done].
  apply IH.
Qed.

Lemma react_loop_app actions paths pre post st :
  react_loop actions paths (pre ++ post) st =
  bind (react_loop actions paths pre)
       (fun _ => react_loop actions paths post) st.
Proof.
  revert st. induction pre as [|x pre IH]; intros st; simpl; [done|].
  unfold bind in *. destruct (react_reaction _ _ _ _) as [st1 [[]|e]]; [|done].
  apply IH.
Qed.

End Steps.

Section Invariants.
Context {H : Host}.
Variable actions : gmap string json.
Variable P : state → Prop.
Variable E : state → exn → Prop.
Hypothesis HI : pass_invariant actions P E.

Lemma trigger_invariant reaction paths :
  hoare P (trigger reaction paths) (fun _ => P) E.
Proof.
  intros st st' r HP Hrun.
  destruct (trigger_outcome _ _ _ _ _ Hrun) as [Hd Htr].
  pose proof (inv_trigger _ _ _ HI st st' HP Hd Htr) as HP'.
  destruct r; [done|]. by apply (inv_raise _ _ _ HI).
Qed.

Lemma action_invariant reaction action :
  hoare P (react_action actions reaction action) (fun _ => P) E.
Proof.
  intros st st' r HP Hrun. apply react_action_outcome in Hrun.
  exact (inv_action _ _ _ HI _ _ _ _ HP Hrun).
Qed.

Lemma execute_invariant reaction execute :
  hoare P (execute_loop actions reaction execute) (fun _ => P) E.
Proof.
  induction execute as [|a execute IH]; simpl.
  - apply hoare_ret.
  - eapply hoare_bind; [apply action_invariant|]. intros ?. exact IH.
Qed.

Lemma reaction_invariant paths reaction :
  hoare P (react_reaction actions paths reaction) (fun _ => P) E.
Proof.
  unfold react_reaction.
  eapply hoare_bind; [apply trigger_invariant|]. intros [|]; [|apply hoare_ret].
  eapply hoare_bind; [apply hoare_lift, (inv_raise _ _ _ HI)|]. intros ex.
  eapply hoare_bind; [apply hoare_lift, (inv_raise _ _ _ HI)|]. intros execute.
  apply execute_invariant.
Qed.

Lemma loop_invariant paths reactions :
  hoare P (react_loop actions paths reactions) (fun _ => P) E.
Proof.
  induction reactions as [|r reactions IH]; simpl.
  - apply hoare_ret.
  - eapply hoare_bind; [apply reaction_invariant|]. intros ?. exact IH.
Qed.

Lemma reaches_invariant paths w pre reaction xs action ys st :
  P (init w) → reaches actions paths w pre reaction xs action ys st → P st.
Proof.
  intros H0 (_ & st0 & st1 & Hpre & Htrig & Hxs).
  pose proof (loop_invariant paths pre _ _ _ H0 Hpre) as H1. simpl in H1.
  pose proof (trigger_invariant reaction paths _ _ _ H1 Htrig) as H2. simpl in H2.
  exact (execute_invariant reaction xs _ _ _ H2 Hxs).
Qed.

End Invariants.

Section Moments.
Context {H : Host}.

(** From the moment a reference is reached, the pass is what is left of
    it. *)
Lemma react_from actions paths w pre reaction xs action ys st post :
  reaches actions paths w pre reaction xs action ys st →
  react actions (pre ++ reaction :: post) paths w =
  bind (react_action actions reaction action)
    (fun _ => bind (execute_loop actions reaction ys)
       (fun _ => react_loop actions paths post)) st.
Proof.
  intros (Hex & st0 & st1 & Hpre & Htrig & Hxs).
  unfold react. rewrite react_loop_app, (bind_ok _ _ _ _ _ Hpre). simpl.
  unfold react_reaction, execute_of, rbind in *.
  destruct (py_getitem reaction "execute") as [ex|] eqn:Hget; [|done].
  unfold bind, lift in *. rewrite Htrig, Hex, execute_loop_app.
  unfold bind. rewrite Hxs. simpl. unfold bind.
  by destruct (react_action _ _ _ _) as [? [[]|?]].
Qed.

End Moments.

(** ** Each action at most once *)

Section AtMostOnce.
Context {H : Host}.

Lemma executed_app t1 t2 : executed (t1 ++ t2) = executed t1 ++ executed t2.
Proof. apply omap_app. Qed.

Lemma once_invariant actions :
  pass_invariant actions once (fun st _ => NoDup (executed (st_trace st))).
Proof.
  split.
  - intros st _ [Hnd _]. exact Hnd.
  - intros st st' [Hnd Hin] Hd [Htr|(argv & x & Htr)]; unfold once;
      rewrite Htr, Hd, ?executed_app; simpl; rewrite ?app_nil_r; done.
  - intros action st st' r [Hnd Hin] Hout.
    destruct Hout as [r|name item na c w' r _ _ Hnot _ _ _ _].
    { destruct r; [by split|done]. }
    assert (NoDup (executed (st_trace st) ++ [name])) as Hnd'.
    { apply NoDup_app. split; [done|]. split; [|apply NoDup_singleton].
      intros a Ha ->%list_elem_of_singleton. by apply Hnot, Hin. }
    destruct r as [[|p|p]|e]; simpl; unfold once; simpl;
      rewrite ?executed_app; simpl; rewrite ?app_nil_r; try done.
    split; [done|]. intros a [Ha| ->%list_elem_of_singleton]%elem_of_app.
    + apply elem_of_union_l. by apply Hin.
    + apply elem_of_union_r. by apply elem_of_singleton.
Qed.

Lemma once_init w : once (init w).
Proof. split; simpl; [apply NoDup_nil_2|]. intros a Ha. by apply elem_of_nil in Ha. Qed.

End AtMostOnce.

(** C1: in a pass of [react] over any catalog, reaction list and list of
    changed paths, in any world, no action's command is invoked twice,
    however many firing reactions name it; and a reference whose action
    is in [done_actions] is passed over: no call, no exception, the state
    as it was. *)
Theorem react_at_most_once `{H : Host} (actions : gmap string json)
    (reactions : list json) (paths_changed : list string) (w : world) :
  NoDup (executed (st_trace (fst (react actions reactions paths_changed w)))) ∧
  ∀ (reaction : json) (name : string) (item : json) (st : state),
    actions !! name = Some item →
    name ∈ done_actions st →
    react_action actions reaction (JStr name) st = (st, Ok tt).
Proof.
  split.
  - unfold react.
    destruct (react_loop actions paths_changed reactions (init w)) as [st r] eqn:Hrun.
    pose proof (loop_invariant actions _ _ (once_invariant actions)
                  paths_changed reactions _ _ _ (once_init w) Hrun) as Hpost.
    simpl. destruct r; [apply Hpost|exact Hpost].
  - intros reaction name item st Hitem Hdone.
    unfold react_action, bind, lift, get_done. simpl. rewrite Hitem.
    destruct (decide (name ∉ done_actions st)); [done|reflexivity].
Qed.

Lemma react_at_most_once_witness :
  let st := State (H := sample_host) 1%nat {["svc.build"]}
              [EvCheckCall "svc.build" ["make"] (Ok 0)] in
  sample_actions !! "svc.build" = Some (JObj [("command", JStr "make")]) ∧
  "svc.build" ∈ done_actions st ∧
  react_action sample_actions (JObj [("execute", JArr [JStr "svc.build"])])
    (JStr "svc.build") st = (st, Ok tt).
Proof.
  intros st.
  assert (sample_actions !! "svc.build" = Some (JObj [("command", JStr "make")]))
    as H1 by (vm_compute; reflexivity).
  assert ("svc.build" ∈ done_actions st) as H2 by (vm_compute; reflexivity).
  split; [exact H1|]. split; [exact H2|].
  exact (proj2 (react_at_most_once (H := sample_host) sample_actions [] [] 0%nat)
           _ _ _ st H1 H2).
Defined.

(** ** The first failure ends the pass *)

Section FailFast.
Context {H : Host}.

Lemma all_succeeded_nil : all_succeeded [].
Proof. intros a argv z Hin. by apply elem_of_nil in Hin. Qed.

Lemma all_succeeded_snoc tr ev :
  all_succeeded tr →
  (∀ a argv z, ev = EvCheckCall a argv (Ok z) → z = 0) →
  all_succeeded (tr ++ [ev]).
Proof.
  intros Htr Hev a argv z [Hin|Hin%list_elem_of_singleton]%elem_of_app.
  - exact (Htr _ _ _ Hin).
  - exact (Hev _ _ _ (eq_sym Hin)).
Qed.

Lemma failing_invariant actions :
  pass_invariant actions (fun st => all_succeeded (st_trace st))
    (fun st e => all_succeeded (st_trace st) ∨ failed_at actions st e).
Proof.
  split.
  - intros st e Hall. by left.
  - intros st st' Hall _ [->|(argv & x & ->)]; [done|].
    apply all_succeeded_snoc; [done|]. intros; discriminate.
  - intros action st st' r Hall Hout.
    destruct Hout as [r|name item na c w' r _ Hitem Hnot _ _ Hcmd _].
    { destruct r; [done|by left]. }
    destruct r as [z|e]; [destruct (decide (z = 0)) as [->|Hz]|]; simpl.
    + apply all_succeeded_snoc; [done|]. by intros ? ? ? [= _ _ <-].
    + assert (failed_at actions
                (State w' (done_actions st)
                   (st_trace st ++ [EvCheckCall name (split c) (Ok z); EvPrint c z]))
                (CalledProcessError z (split c))) as Hfail.
      { exists (st_trace st), name, item, c, z. by repeat split. }
      destruct z; [done|by right..].
    + left. apply all_succeeded_snoc; [done|]. intros; discriminate.
Qed.

(** An exception at a reference is the end of the pass, whatever
    follows the reference. *)
Lemma react_abort actions paths w pre reaction xs action ys st post st' e :
  reaches actions paths w pre reaction xs action ys st →
  react_action actions reaction action st = (st', Raise e) →
  react actions (pre ++ reaction :: post) paths w = (st', Raise e).
Proof.
  intros Hreach Hact.
  rewrite (react_from _ _ _ _ _ _ _ _ _ post Hreach).
  by apply bind_raise.
Qed.

End FailFast.

(** C3: when the command of an action exits with a status other than 0
    during [react], the call is the last thing the pass does but for the
    line it prints, which names the command and the status; the pass ends
    with the [CalledProcessError] of that status, the action is not in
    [done_actions]; and an exception at a reference ends the pass in the
    state it left, whatever references and reactions follow. *)
Theorem react_fail_fast `{H : Host} (actions : gmap string json)
    (paths_changed : list string) (w : world) :
  (∀ (reactions : list json) (a : string) (argv : list string) (z : Z),
     let out := react actions reactions paths_changed w in
     EvCheckCall a argv (Ok z) ∈ st_trace (fst out) →
     z ≠ 0 →
     ∃ pre item c,
       st_trace (fst out) = pre ++ [EvCheckCall a argv (Ok z); EvPrint c z] ∧
       actions !! a = Some item ∧
       py_getitem item "command" = Ok (JStr c) ∧
       argv = split c ∧
       snd out = Raise (CalledProcessError z argv) ∧
       a ∉ done_actions (fst out)) ∧
  (∀ pre reaction xs action ys post st st' e,
     reaches actions paths_changed w pre reaction xs action ys st →
     react_action actions reaction action st = (st', Raise e) →
     react actions (pre ++ reaction :: post) paths_changed w = (st', Raise e)).
Proof.
  split.
  - intros reactions a argv z out Hin Hz. subst out. unfold react in *.
    destruct (react_loop actions paths_changed reactions (init w)) as [st r] eqn:Hrun.
    pose proof (loop_invariant actions _ _ (failing_invariant actions)
                  paths_changed reactions (init w) _ _ all_succeeded_nil Hrun) as Hpost.
    simpl in *. destruct r as [[]|e].
    { by destruct Hz, (Hpost _ _ _ Hin). }
    destruct Hpost as [Hall|(pre & name & item & c & z' & Hz' & Hpre & Htr & Hitem & Hcmd & -> & Hnot)].
    { by destruct Hz, (Hall _ _ _ Hin). }
    rewrite Htr in Hin. apply elem_of_app in Hin as [Hin|Hin].
    { by destruct Hz, (Hpre _ _ _ Hin). }
    apply elem_of_cons in Hin as [[= -> -> ->]|Hin].
    + exists pre, item, c. by repeat split.
    + by apply list_elem_of_singleton in Hin.
  - intros pre reaction xs action ys post st st' e Hreach Hact.
    by apply (react_abort actions paths_changed w pre reaction xs action ys st post).
Qed.

Lemma react_fail_fast_witness :
  let out := react (H := sample_host) sample_actions failing_reactions [] 0%nat in
  let st := State (H := sample_host) 1%nat {["svc.build"]}
              [EvCheckCall "svc.build" ["make"] (Ok 0)] in
  let st' := State (H := sample_host) 2%nat {["svc.build"]}
               [EvCheckCall "svc.build" ["make"] (Ok 0);
                EvCheckCall "svc.check" ["false"] (Ok 1);
                EvPrint "false" 1] in
  (EvCheckCall "svc.check" ["false"] (Ok 1) ∈ st_trace (fst out) ∧
   1 ≠ 0 ∧
   ∃ pre item c,
     st_trace (fst out) = pre ++ [EvCheckCall "svc.check" ["false"] (Ok 1); EvPrint c 1] ∧
     sample_actions !! "svc.check" = Some item ∧
     py_getitem item "command" = Ok (JStr c) ∧
     ["false"] = split c ∧
     snd out = Raise (CalledProcessError 1 ["false"]) ∧
     "svc.check" ∉ done_actions (fst out)) ∧
  (reaches (H := sample_host) sample_actions [] 0%nat [] (JObj [("execute",
       JArr [JStr "svc.build"; JStr "svc.check"; JStr "svc.deploy"])])
     [JStr "svc.build"] (JStr "svc.check") [JStr "svc.deploy"] st ∧
   react (H := sample_host) sample_actions failing_reactions [] 0%nat
     = (st', Raise (CalledProcessError 1 ["false"]))).
Proof.
  intros out st st'.
  assert (EvCheckCall "svc.check" ["false"] (Ok 1) ∈ st_trace (fst out)) as Hin.
  { apply list_elem_of_In. vm_compute. right. left. reflexivity. }
  assert (1 ≠ 0) as Hz by lia.
  assert (reaches (H := sample_host) sample_actions [] 0%nat [] (JObj [("execute",
            JArr [JStr "svc.build"; JStr "svc.check"; JStr "svc.deploy"])])
            [JStr "svc.build"] (JStr "svc.check") [JStr "svc.deploy"] st) as Hreach.
  { split; [reflexivity|]. exists (init (H := sample_host) 0%nat), (init (H := sample_host) 0%nat).
    repeat split; vm_compute; reflexivity. }
  split.
  - split; [exact Hin|]. split; [exact Hz|].
    exact (proj1 (react_fail_fast (H := sample_host) sample_actions [] 0%nat)
             failing_reactions _ _ _ Hin Hz).
  - split; [exact Hreach|].
    refine (proj2 (react_fail_fast (H := sample_host) sample_actions [] 0%nat)
              [] _ _ _ _ [JObj [("execute", JArr [JStr "svc.rollback"])]] st st' _
              Hreach _).
    vm_compute. reflexivity.
Defined.

(** ** A reference that is not in the catalog *)

(** C6: when the pass comes to a reference of a firing reaction that is
    not a key of the catalog, it ends there with the [ValueError] that
    names the reference and the reaction, in the state it was in: nothing
    that follows in the reaction or in the list is processed. *)
Theorem react_unknown_action `{H : Host} (actions : gmap string json)
    (paths_changed : list string) (w : world) (pre : list json) (reaction : json)
    (xs : list json) (name : string) (ys post : list json) (st : state) :
  reaches actions paths_changed w pre reaction xs (JStr name) ys st →
  actions !! name = None →
  react actions (pre ++ reaction :: post) paths_changed w =
    (st, Raise (ValueError (ActionNotInList (JStr name) reaction))).
Proof.
  intros Hreach Hnone.
  apply (react_abort actions paths_changed w pre reaction xs (JStr name) ys st post);
    [done|].
  unfold react_action, bind, lift. simpl. by rewrite Hnone.
Qed.

Lemma react_unknown_action_witness :
  let reaction := JObj [("execute", JArr [JStr "svc.build"; JStr "svc.missing";
                                         JStr "svc.deploy"])] in
  let st := State (H := sample_host) 1%nat {["svc.build"]}
              [EvCheckCall "svc.build" ["make"] (Ok 0)] in
  reaches (H := sample_host) sample_actions [] 0%nat [] reaction
    [JStr "svc.build"] (JStr "svc.missing") [JStr "svc.deploy"] st ∧
  sample_actions !! "svc.missing" = None ∧
  react (H := sample_host) sample_actions
    ([] ++ reaction :: [JObj [("execute", JArr [JStr "svc.rollback"])]]) [] 0%nat =
    (st, Raise (ValueError (ActionNotInList (JStr "svc.missing") reaction))).
Proof.
  intros reaction st.
  assert (reaches (H := sample_host) sample_actions [] 0%nat [] reaction
            [JStr "svc.build"] (JStr "svc.missing") [JStr "svc.deploy"] st) as Hreach.
  { split; [reflexivity|].
    exists (init (H := sample_host) 0%nat), (init (H := sample_host) 0%nat).
    repeat split; vm_compute; reflexivity. }
  assert (sample_actions !! "svc.missing" = None) as Hnone by (vm_compute; reflexivity).
  split; [exact Hreach|]. split; [exact Hnone|].
  exact (react_unknown_action (H := sample_host) sample_actions [] 0%nat [] reaction
           _ _ _ _ st Hreach Hnone).
Defined.

(** ** Actions that are not to run after others *)

Section Exclusion.
Context {H : Host}.
Variable actions : gmap string json.
Variable st0 : state.
Variable name : string.
Variable item : json.
Variable na : gset string.
Hypothesis Hitem : actions !! name = Some item.
Hypothesis Hna : not_after_of item = Ok na.
Hypothesis Hblocked : (size (done_actions st0 ∩ na) =? 0)%nat = false.

Lemma blocked_later st :
  done_actions st0 ⊆ done_actions st → done_actions st ∩ na ≠ ∅.
Proof.
  intros Hsub Hempty.
  assert (done_actions st0 ∩ na = ∅) as Hz.
  { apply set_eq. intros x. rewrite elem_of_intersection. split.
    - intros [Hx Hn]. rewrite <- Hempty. apply elem_of_intersection. auto.
    - intros Hx. by apply elem_of_empty in Hx. }
  apply size_inter_zero in Hz. congruence.
Qed.

Lemma not_since_invariant :
  pass_invariant actions (not_since st0 name) (fun st _ => not_since st0 name st).
Proof.
  split.
  - done.
  - intros st st' (Hsub & tl & Htl & Hnot) Hd Htr. split; [by rewrite Hd|].
    destruct Htr as [Htr|(argv & x & Htr)]; rewrite Htr, Htl.
    + by exists tl.
    + exists (tl ++ [EvCall argv x]). rewrite app_assoc. split; [done|].
      rewrite executed_app. simpl. by rewrite app_nil_r.
  - intros action st st' r (Hsub & tl & Htl & Hnot) Hout.
    destruct Hout as [r|name' item' na' c w' r _ Hitem' _ Hna' Hdisj _ _].
    { by destruct r; split; eauto. }
    assert (name' ≠ name) as Hne.
    { intros ->. rewrite Hitem in Hitem'. injection Hitem' as <-.
      rewrite Hna in Hna'. injection Hna' as <-.
      by apply (blocked_later st). }
    assert (∀ more, executed more = [] →
              ∃ tl', st_trace st ++ EvCheckCall name' (split c) r :: more
                     = st_trace st0 ++ tl' ∧ name ∉ executed tl') as Hgo.
    { intros more Hmore. exists (tl ++ EvCheckCall name' (split c) r :: more).
      rewrite Htl, app_assoc. split; [done|].
      rewrite executed_app. simpl. rewrite Hmore.
      intros [?| ->%list_elem_of_singleton]%elem_of_app; done. }
    destruct r as [[|p|p]|e]; simpl; (split; simpl; [set_solver|by apply Hgo]).
Qed.

End Exclusion.

(** C2, as the code has it: when the pass comes to an action whose
    [not_after] set meets [done_actions], the reference is passed over
    without a call and without an exception, and the command of the
    action is not invoked from then on in the pass; if the action is not
    in [done_actions] at that moment, its command is not invoked in the
    pass at all. *)
Theorem react_not_after `{H : Host} (actions : gmap string json)
    (paths_changed : list string) (w : world) (pre : list json) (reaction : json)
    (xs : list json) (name : string) (ys post : list json) (st : state)
    (item : json) (na : gset string) :
  reaches actions paths_changed w pre reaction xs (JStr name) ys st →
  actions !! name = Some item →
  not_after_of item = Ok na →
  (size (done_actions st ∩ na) =? 0)%nat = false →
  let out := react actions (pre ++ reaction :: post) paths_changed w in
  react_action actions reaction (JStr name) st = (st, Ok tt) ∧
  (∃ tl, st_trace (fst out) = st_trace st ++ tl ∧ name ∉ executed tl) ∧
  (name ∉ done_actions st → name ∉ executed (st_trace (fst out))).
Proof.
  intros Hreach Hitem Hna Hblocked out.
  assert (react_action actions reaction (JStr name) st = (st, Ok tt)) as Hskip.
  { by apply (react_action_skips actions reaction name item na). }
  assert (∃ tl, st_trace (fst out) = st_trace st ++ tl ∧ name ∉ executed tl) as Hlater.
  { subst out. rewrite (react_from _ _ _ _ _ _ _ _ _ post Hreach).
    rewrite (bind_ok _ _ _ _ _ Hskip).
    pose proof (not_since_invariant actions st name item na Hitem Hna Hblocked) as HI.
    destruct (bind _ _ st) as [st' r] eqn:Hrun.
    assert (not_since st name st) as Hstart.
    { split; [done|]. exists []. rewrite app_nil_r. split; [done|]. apply not_elem_of_nil. }
    pose proof (hoare_bind _ _ _ _ _ _
                  (execute_invariant actions _ _ HI reaction ys)
                  (fun _ => loop_invariant actions _ _ HI paths_changed post)
                  st st' r Hstart Hrun) as Hpost.
    simpl. by destruct r; destruct Hpost as [_ Htl]. }
  split; [exact Hskip|]. split; [exact Hlater|].
  intros Hnot. destruct Hlater as (tl & -> & Htl).
  pose proof (reaches_invariant actions _ _ (once_invariant actions)
                _ _ _ _ _ _ _ _ (once_init w) Hreach) as [_ Hin].
  rewrite executed_app. intros [Hold|Hnew]%elem_of_app; [|done].
  by apply Hnot, Hin.
Qed.

Lemma react_not_after_witness :
  let reaction := JObj [("execute", JArr [JStr "svc.build"; JStr "svc.deploy"])] in
  let item := JObj [("command", JStr "make deploy");
                    ("not_after", JArr [JStr "svc.rollback"])] in
  let st := State (H := sample_host) 2%nat {["svc.rollback"; "svc.build"]}
              [EvCheckCall "svc.rollback" ["make"; "rollback"] (Ok 0);
               EvCheckCall "svc.build" ["make"] (Ok 0)] in
  let out := react (H := sample_host) sample_actions
               ([JObj [("execute", JArr [JStr "svc.rollback"])]] ++ reaction :: [])
               [] 0%nat in
  reaches (H := sample_host) sample_actions [] 0%nat
    [JObj [("execute", JArr [JStr "svc.rollback"])]] reaction
    [JStr "svc.build"] (JStr "svc.deploy") [] st ∧
  sample_actions !! "svc.deploy" = Some item ∧
  not_after_of item = Ok {["svc.rollback"]} ∧
  (size (done_actions st ∩ {["svc.rollback"]}) =? 0)%nat = false ∧
  ("svc.deploy" ∉ done_actions st) ∧
  react_action sample_actions reaction (JStr "svc.deploy") st = (st, Ok tt) ∧
  (∃ tl, st_trace (fst out) = st_trace st ++ tl ∧ "svc.deploy" ∉ executed tl) ∧
  "svc.deploy" ∉ executed (st_trace (fst out)).
Proof.
  intros reaction item st out.
  assert (reaches (H := sample_host) sample_actions [] 0%nat
            [JObj [("execute", JArr [JStr "svc.rollback"])]] reaction
            [JStr "svc.build"] (JStr "svc.deploy") [] st) as Hreach.
  { split; [reflexivity|].
    exists (State (H := sample_host) 1%nat {["svc.rollback"]}
              [EvCheckCall "svc.rollback" ["make"; "rollback"] (Ok 0)]),
           (State (H := sample_host) 1%nat {["svc.rollback"]}
              [EvCheckCall "svc.rollback" ["make"; "rollback"] (Ok 0)]).
    repeat split; vm_compute; reflexivity. }
  assert (sample_actions !! "svc.deploy" = Some item) as Hitem by (vm_compute; reflexivity).
  assert (not_after_of item = Ok {["svc.rollback"]}) as Hna by (vm_compute; reflexivity).
  assert ((size (done_actions st ∩ {["svc.rollback"]}) =? 0)%nat = false) as Hblocked
    by (vm_compute; reflexivity).
  assert ("svc.deploy" ∉ done_actions st) as Hnot by (vm_compute; discriminate).
  pose proof (react_not_after (H := sample_host) sample_actions [] 0%nat
                [JObj [("execute", JArr [JStr "svc.rollback"])]] reaction
                [JStr "svc.build"] "svc.deploy" [] [] st item {["svc.rollback"]}
                Hreach Hitem Hna Hblocked) as (Hskip & Hlater & Hnever).
  split; [exact Hreach|]. split; [exact Hitem|]. split; [exact Hna|].
  split; [exact Hblocked|]. split; [exact Hnot|]. split; [exact Hskip|].
  split; [exact Hlater|]. exact (Hnever Hnot).
Defined.

(** C2 as the claim states it does not hold: the command of an action
    can have been invoked before the moment its [not_after] set meets
    [done_actions].  Here [svc.a] runs, then [svc.b], and the second
    reaction comes back to [svc.a]. *)
Lemma react_not_after_counterexample :
  let reaction := JObj [("execute", JArr [JStr "svc.a"])] in
  let item := JObj [("command", JStr "run a"); ("not_after", JArr [JStr "svc.b"])] in
  let st := State (H := sample_host) 2%nat {["svc.a"; "svc.b"]}
              [EvCheckCall "svc.a" ["run"; "a"] (Ok 0);
               EvCheckCall "svc.b" ["run"; "b"] (Ok 0)] in
  revisit_reactions = [JObj [("execute", JArr [JStr "svc.a"; JStr "svc.b"])]]
                        ++ reaction :: [] ∧
  reaches (H := sample_host) exclusive_actions [] 0%nat
    [JObj [("execute", JArr [JStr "svc.a"; JStr "svc.b"])]] reaction
    [] (JStr "svc.a") [] st ∧
  exclusive_actions !! "svc.a" = Some item ∧
  not_after_of item = Ok {["svc.b"]} ∧
  (size (done_actions st ∩ {["svc.b"]}) =? 0)%nat = false ∧
  "svc.a" ∈ executed (st_trace (fst (react (H := sample_host) exclusive_actions
                                        revisit_reactions [] 0%nat))).
Proof.
  intros reaction item st.
  split; [reflexivity|]. split.
  { split; [reflexivity|]. exists st, st. repeat split; vm_compute; reflexivity. }
  split; [vm_compute; reflexivity|]. split; [vm_compute; reflexivity|].
  split; [vm_compute; reflexivity|].
  apply list_elem_of_In. vm_compute. left. reflexivity.
Qed.

(** ** The order of the reactions *)

Section Order.
Context {H : Host}.

Lemma extends_invariant actions tr0 :
  pass_invariant actions (extends tr0) (fun st _ => extends tr0 st).
Proof.
  split.
  - done.
  - intros st st' [tl Htl] _ [Htr|(argv & x & Htr)]; unfold extends; rewrite Htr, Htl.
    + by exists tl.
    + exists (tl ++ [EvCall argv x]). by rewrite app_assoc.
  - intros action st st' r [tl Htl] Hout.
    destruct Hout as [r|name item na c w' r _ _ _ _ _ _ _].
    { by destruct r; exists tl. }
    destruct r as [[|p|p]|e]; simpl; unfold extends; simpl; rewrite Htl;
      eexists; by rewrite <- app_assoc.
Qed.

(** A reference to an action of the catalog that is not in
    [done_actions] and not excluded gets its command invoked. *)
Lemma react_action_runs actions reaction name item na c st :
  actions !! name = Some item →
  name ∉ done_actions st →
  not_after_of item = Ok na →
  done_actions st ∩ na = ∅ →
  py_getitem item "command" = Ok (JStr c) →
  ∃ st' r x tl,
    react_action actions reaction (JStr name) st = (st', r) ∧
    st_trace st' = st_trace st ++ EvCheckCall name (split c) x :: tl.
Proof.
  intros Hitem Hnot Hna Hdisj%size_inter_zero Hcmd.
  unfold react_action, bind, lift, get_done. simpl. rewrite Hitem.
  destruct (decide (name ∉ done_actions st)); [|done].
  rewrite Hna, Hdisj, Hcmd. simpl.
  unfold check_call, bind.
  destruct (popen (split c) st) as [st1 x] eqn:Hp.
  destruct (popen_inv _ _ _ _ Hp) as (w' & x' & -> & -> & Hx).
  unfold log, lift, ret, raise, add_done. simpl.
  destruct x' as [z|e]; simpl.
  - destruct (Z.eqb z 0); simpl.
    + by exists (State w' (done_actions st ∪ {[name]})
                   (st_trace st ++ [EvCheckCall name (split c) (Ok z)])),
                (Ok tt), (Ok z), [].
    + eexists _, _, (Ok z), [EvPrint c z]. split; [reflexivity|].
      simpl. by rewrite <- app_assoc.
  - destruct Hx as [[z ?]|[[= ->]|[= ->]]]; [done|..];
      by eexists _, _, _, [].
Qed.

(** With the program started and exiting with 0, the action is added to
    [done_actions]. *)
Lemma react_action_succeeds actions reaction name item na c st w' :
  actions !! name = Some item →
  name ∉ done_actions st →
  not_after_of item = Ok na →
  done_actions st ∩ na = ∅ →
  py_getitem item "command" = Ok (JStr c) →
  split c ≠ [] →
  spawn (st_world st) (split c) = (w', Some 0) →
  react_action actions reaction (JStr name) st =
    (State w' (done_actions st ∪ {[name]})
       (st_trace st ++ [EvCheckCall name (split c) (Ok 0)]), Ok tt).
Proof.
  intros Hitem Hnot Hna Hdisj%size_inter_zero Hcmd Hargv Hspawn.
  unfold react_action, bind, lift, get_done. simpl. rewrite Hitem.
  destruct (decide (name ∉ done_actions st)); [|done].
  rewrite Hna, Hdisj, Hcmd. simpl.
  unfold check_call, bind, popen.
  destruct (split c) as [|a argv] eqn:Hsplit; [done|].
  rewrite Hspawn. reflexivity.
Qed.

End Order.

(** C8: two reactions that fire, [R1] with the action [A] and [R2] with
    the action [B], whose [not_after] is [{A}].  In the order [R1; R2],
    with the command of [A] exiting with 0, the pass invokes [A] alone
    and ends normally: [B] is passed over.  In the order [R2; R1] the
    first thing the pass does is to invoke the command of [B]. *)
Theorem react_order_sensitive `{H : Host} (actions : gmap string json)
    (paths_changed : list string) (w w1 : world) (R1 R2 : json) (A B : string)
    (itemA itemB : json) (naA : gset string) (cA cB : string) :
  fires_quietly R1 paths_changed →
  fires_quietly R2 paths_changed →
  execute_of R1 = Ok [JStr A] →
  execute_of R2 = Ok [JStr B] →
  actions !! A = Some itemA →
  actions !! B = Some itemB →
  not_after_of itemB = Ok {[A]} →
  py_getitem itemB "command" = Ok (JStr cB) →
  not_after_of itemA = Ok naA →
  py_getitem itemA "command" = Ok (JStr cA) →
  split cA ≠ [] →
  spawn w (split cA) = (w1, Some 0) →
  react actions [R1; R2] paths_changed w =
    (State w1 {[A]} [EvCheckCall A (split cA) (Ok 0)], Ok tt) ∧
  ∃ r tl,
    st_trace (fst (react actions [R2; R1] paths_changed w)) =
      EvCheckCall B (split cB) r :: tl.
Proof.
  intros Hf1 Hf2 He1 He2 HA HB HnaB HcB HnaA HcA Hargv Hspawn.
  unfold react. simpl.
  split.
  - pose proof (react_action_succeeds actions R1 A itemA naA cA (init w) w1 HA
                  (not_elem_of_empty A) HnaA (intersection_empty_l_L naA) HcA
                  Hargv Hspawn) as HrA.
    simpl in HrA. rewrite (left_id_L ∅ (∪)) in HrA.
    assert (react_action actions R2 (JStr B)
              (State w1 {[A]} [EvCheckCall A (split cA) (Ok 0)])
            = (State w1 {[A]} [EvCheckCall A (split cA) (Ok 0)], Ok tt)) as HrB.
    { apply (react_action_skips actions R2 B itemB {[A]} _ HB HnaB).
      apply not_true_is_false. intros Hs. apply size_inter_zero in Hs. simpl in Hs.
      assert (A ∈ (∅ : gset string)) as Hin; [|by apply elem_of_empty in Hin].
      rewrite <- Hs. apply elem_of_intersection. split; by apply elem_of_singleton. }
    unfold bind at 1. rewrite (react_reaction_single _ _ _ _ _ Hf1 He1).
    rewrite (bind_ok _ _ _ _ _ HrA). unfold ret at 1.
    unfold bind at 1. rewrite (react_reaction_single _ _ _ _ _ Hf2 He2).
    rewrite (bind_ok _ _ _ _ _ HrB). reflexivity.
  - destruct (react_action_runs actions R2 B itemB {[A]} cB (init w) HB
                (not_elem_of_empty B) HnaB (intersection_empty_l_L {[A]}) HcB)
      as (st' & r & x & tl & Hrun & Htr).
    simpl in Htr.
    unfold bind at 1. rewrite (react_reaction_single _ _ _ _ _ Hf2 He2).
    unfold bind at 1. rewrite Hrun.
    destruct r as [[]|e]; [|by exists x, tl].
    unfold ret at 1.
    destruct (bind _ _ st') as [st2 r2] eqn:Hrest.
    pose proof (loop_invariant actions _ _
                  (extends_invariant actions (EvCheckCall B (split cB) x :: tl))
                  paths_changed [R1] st' st2 r2) as Hpost.
    assert (extends (EvCheckCall B (split cB) x :: tl) st2) as [tl' Htl'].
    { assert (extends (EvCheckCall B (split cB) x :: tl) st') as Hstart
        by (exists []; by rewrite app_nil_r).
      specialize (Hpost Hstart Hrest). by destruct r2. }
    exists x, (tl ++ tl'). simpl. by rewrite Htl'.
Qed.

Lemma react_order_sensitive_witness :
  let R1 := JObj [("execute", JArr [JStr "svc.rollback"])] in
  let R2 := JObj [("execute", JArr [JStr "svc.deploy"])] in
  let itemA := JObj [("command", JStr "make rollback")] in
  let itemB := JObj [("command", JStr "make deploy");
                     ("not_after", JArr [JStr "svc.rollback"])] in
  fires_quietly (H := sample_host) R1 [] ∧
  fires_quietly (H := sample_host) R2 [] ∧
  execute_of R1 = Ok [JStr "svc.rollback"] ∧
  execute_of R2 = Ok [JStr "svc.deploy"] ∧
  sample_actions !! "svc.rollback" = Some itemA ∧
  sample_actions !! "svc.deploy" = Some itemB ∧
  not_after_of itemB = Ok {["svc.rollback"]} ∧
  py_getitem itemB "command" = Ok (JStr "make deploy") ∧
  not_after_of itemA = Ok ∅ ∧
  py_getitem itemA "command" = Ok (JStr "make rollback") ∧
  split "make rollback" ≠ [] ∧
  spawn (Host := sample_host) 0%nat (split "make rollback") = (1%nat, Some 0) ∧
  react (H := sample_host) sample_actions [R1; R2] [] 0%nat =
    (State (H := sample_host) 1%nat {["svc.rollback"]}
       [EvCheckCall "svc.rollback" (split "make rollback") (Ok 0)], Ok tt) ∧
  ∃ r tl,
    st_trace (fst (react (H := sample_host) sample_actions [R2; R1] [] 0%nat)) =
      EvCheckCall "svc.deploy" (split "make deploy") r :: tl.
Proof.
  intros R1 R2 itemA itemB.
  assert (fires_quietly (H := sample_host) R1 []) as Hf1 by (intros st; reflexivity).
  assert (fires_quietly (H := sample_host) R2 []) as Hf2 by (intros st; reflexivity).
  assert (execute_of R1 = Ok [JStr "svc.rollback"]) as He1 by reflexivity.
  assert (execute_of R2 = Ok [JStr "svc.deploy"]) as He2 by reflexivity.
  assert (sample_actions !! "svc.rollback" = Some itemA) as HA by (vm_compute; reflexivity).
  assert (sample_actions !! "svc.deploy" = Some itemB) as HB by (vm_compute; reflexivity).
  assert (not_after_of itemB = Ok {["svc.rollback"]}) as HnaB by (vm_compute; reflexivity).
  assert (py_getitem itemB "command" = Ok (JStr "make deploy")) as HcB by reflexivity.
  assert (not_after_of itemA = Ok ∅) as HnaA by reflexivity.
  assert (py_getitem itemA "command" = Ok (JStr "make rollback")) as HcA by reflexivity.
  assert (split "make rollback" ≠ []) as Hargv by (vm_compute; discriminate).
  assert (spawn (Host := sample_host) 0%nat (split "make rollback") = (1%nat, Some 0))
    as Hspawn by reflexivity.
  pose proof (react_order_sensitive (H := sample_host) sample_actions [] 0%nat 1%nat
                R1 R2 "svc.rollback" "svc.deploy" itemA itemB ∅
                "make rollback" "make deploy"
                Hf1 Hf2 He1 He2 HA HB HnaB HcB HnaA HcA Hargv Hspawn) as [Hfirst Hsecond].
  repeat (split; [assumption|]). exact Hsecond.
Defined.

(** ** Building the reaction list *)

Lemma dict_get_set_eq k v d : dict_get k (dict_set k v d) = Some v.
Proof.
  induction d as [|[k' v'] d IH]; simpl.
  - by rewrite String.eqb_refl.
  - destruct (String.eqb k k') eqn:E; simpl; rewrite ?String.eqb_refl, ?E; done.
Qed.

Lemma dict_get_set_ne k k' v d :
  k ≠ k' → dict_get k' (dict_set k v d) = dict_get k' d.
Proof.
  intros Hne.
  assert (String.eqb k' k = false) as Hf by (apply String.eqb_neq; congruence).
  induction d as [|[k0 v0] d IH]; simpl.
  - by rewrite Hf.
  - destruct (String.eqb_spec k k0) as [->|Hk]; simpl.
    + by rewrite Hf.
    + by rewrite IH.
Qed.

Lemma qualify_all_strings service_name l :
  forallb is_str l = true →
  qualify_all service_name l =
    Ok (map (fun name => JStr (qualify service_name name)) (omap as_str l)).
Proof.
  induction l as [|x l IH]; simpl; [done|].
  intros [Hx Hl]%andb_true_iff. destruct x; try done. simpl.
  by rewrite (IH Hl).
Qed.

(** The reaction [get_reactions] stores for a reaction that passed the
    schema: its [execute] list with every name qualified. *)
Lemma qualify_reaction_valid service_name r :
  _reaction_item_schema r = true →
  ∃ d names,
    r = JObj d ∧
    qualify_reaction service_name r =
      Ok (JObj (dict_set "execute"
                  (JArr (map (fun name => JStr (qualify service_name name)) names)) d)).
Proof.
  destruct r as [| | | | |d]; try done. simpl.
  intros [[Hex _]%andb_true_iff Hhas]%andb_true_iff.
  unfold property, dict_has in *. unfold qualify_reaction. simpl.
  destruct (dict_get "execute" d) as [ex|]; [|done]. simpl.
  destruct ex as [| | | |l|]; try done. simpl in *.
  apply andb_true_iff in Hex as [[Hstr _]%andb_true_iff _].
  exists d, (omap as_str l). split; [done|].
  by rewrite (qualify_all_strings _ _ Hstr).
Qed.

Lemma reactions_loop_valid service_name l :
  forallb _reaction_item_schema l = true →
  ∃ out,
    reactions_loop service_name l = Ok out ∧
    Forall2 (fun r r' => ∃ d ex, r = JObj d ∧ r' = JObj (dict_set "execute" ex d)) l out.
Proof.
  induction l as [|r l IH]; simpl.
  - intros _. exists []. by split.
  - intros [Hr Hl]%andb_true_iff.
    destruct (qualify_reaction_valid service_name r Hr) as (d & names & -> & ->).
    destruct (IH Hl) as (out & -> & Hall). simpl.
    eexists. split; [reflexivity|]. constructor; [|done]. eauto.
Qed.

(** A document that passes the schema is built, reaction by reaction. *)
Lemma get_reactions_valid service_name pre d post :
  _reaction_schema (JArr (pre ++ JObj d :: post)) = true →
  ∃ pre' ex post',
    get_reactions service_name (JArr (pre ++ JObj d :: post)) =
      Ok (pre' ++ JObj (dict_set "execute" ex d) :: post') ∧
    length pre' = length pre.
Proof.
  intros Hvalid. unfold get_reactions, validate. rewrite Hvalid. simpl in *.
  destruct (reactions_loop_valid service_name _ Hvalid) as (out & -> & Hall).
  apply Forall2_app_inv_l in Hall as (pre' & rest & Hpre & Hrest & ->).
  apply Forall2_cons_inv_l in Hrest as (r' & post' & (d' & ex & [= <-] & ->) & _ & ->).
  exists pre', ex, post'. split; [done|]. symmetry. by eapply Forall2_length.
Qed.

Section Triggers.
Context {H : Host}.

(** An exception in a trigger ends the pass. *)
Lemma react_stops_at_trigger actions paths w pre reaction post st st' e :
  react_loop actions paths pre (init w) = (st, Ok tt) →
  trigger reaction paths st = (st', Raise e) →
  react actions (pre ++ reaction :: post) paths w = (st', Raise e).
Proof.
  intros Hpre Htrig. unfold react.
  rewrite react_loop_app, (bind_ok _ _ _ _ _ Hpre). simpl.
  unfold react_reaction. by rewrite (bind_raise _ _ _ _ _ (bind_raise _ _ _ _ _ Htrig)).
Qed.

Lemma trigger_when_neither d w_ paths st :
  dict_get "when" d = Some (JObj w_) →
  dict_has "command" w_ = false →
  dict_has "files" w_ = false →
  trigger (JObj d) paths st = (st, Raise (ValueError WhenNeither)).
Proof.
  intros Hwhen Hc Hf. unfold trigger, bind, lift. simpl.
  unfold dict_has. rewrite Hwhen. simpl. by rewrite Hc, Hf.
Qed.

Lemma trigger_no_exitcode d w_ paths st :
  dict_get "when" d = Some (JObj w_) →
  dict_has "command" w_ = true →
  dict_has "exitcode" w_ = false →
  trigger (JObj d) paths st = (st, Raise (KeyError "exitcode")).
Proof.
  intros Hwhen Hc He. unfold trigger, bind, lift. simpl.
  unfold dict_has at 1. rewrite Hwhen. simpl. rewrite Hc.
  unfold dict_has in Hc, He.
  destruct (dict_get "command" w_); [|done].
  by destruct (dict_get "exitcode" w_).
Qed.

End Triggers.

(** C4, as the code has it: a [when] with neither [command] nor [files]
    passes the schema, so [get_reactions] builds the reaction list; the
    [ValueError] 'When block with neither command nor files' is raised by
    [react], when the pass comes to that reaction, and ends the pass
    there. *)
Theorem when_neither_deferred (service_name : string) (pre : list json)
    (d : pydict) (post : list json) (w_ : pydict) :
  _reaction_schema (JArr (pre ++ JObj d :: post)) = true →
  dict_get "when" d = Some (JObj w_) →
  dict_has "command" w_ = false →
  dict_has "files" w_ = false →
  ∃ pre' r' post',
    get_reactions service_name (JArr (pre ++ JObj d :: post)) =
      Ok (pre' ++ r' :: post') ∧
    length pre' = length pre ∧
    ∀ (H : Host) (actions : gmap string json) (paths_changed : list string)
      (w : world) (st : state),
      react_loop actions paths_changed pre' (init w) = (st, Ok tt) →
      react actions (pre' ++ r' :: post') paths_changed w =
        (st, Raise (ValueError WhenNeither)).
Proof.
  intros Hvalid Hwhen Hc Hf.
  destruct (get_reactions_valid service_name pre d post Hvalid)
    as (pre' & ex & post' & Hget & Hlen).
  exists pre', (JObj (dict_set "execute" ex d)), post'.
  split; [exact Hget|]. split; [exact Hlen|].
  intros H actions paths_changed w st Hpre.
  apply (react_stops_at_trigger _ _ _ _ _ _ st); [done|].
  apply (trigger_when_neither _ w_); [|done..].
  by rewrite dict_get_set_ne.
Qed.

Lemma when_neither_deferred_witness :
  let d := [("execute", JArr [JStr "build"]); ("when", JObj [])] in
  _reaction_schema (JArr ([] ++ JObj d :: [])) = true ∧
  dict_get "when" d = Some (JObj []) ∧
  dict_has "command" [] = false ∧
  dict_has "files" [] = false ∧
  ∃ pre' r' post',
    get_reactions "svc" (JArr ([] ++ JObj d :: [])) = Ok (pre' ++ r' :: post') ∧
    length pre' = length (@nil json) ∧
    ∀ (H : Host) (actions : gmap string json) (paths_changed : list string)
      (w : world) (st : state),
      react_loop actions paths_changed pre' (init w) = (st, Ok tt) →
      react actions (pre' ++ r' :: post') paths_changed w =
        (st, Raise (ValueError WhenNeither)).
Proof.
  intros d.
  assert (_reaction_schema (JArr ([] ++ JObj d :: [])) = true) as Hvalid by reflexivity.
  assert (dict_get "when" d = Some (JObj [])) as Hwhen by reflexivity.
  assert (dict_has "command" [] = false) as Hc by reflexivity.
  assert (dict_has "files" [] = false) as Hf by reflexivity.
  split; [exact Hvalid|]. split; [exact Hwhen|]. split; [exact Hc|]. split; [exact Hf|].
  exact (when_neither_deferred "svc" [] d [] [] Hvalid Hwhen Hc Hf).
Defined.

(** C4 as the claim states it does not hold: [get_reactions] builds the
    list of a document whose [when] has neither field, and the error
    comes from the pass. *)
Lemma when_neither_counterexample :
  get_reactions "svc" neither_doc =
    Ok [JObj [("execute", JArr [JStr "svc.build"]); ("when", JObj [])]] ∧
  react (H := sample_host) sample_actions
    [JObj [("execute", JArr [JStr "svc.build"]); ("when", JObj [])]] [] 0%nat =
    (init (H := sample_host) 0%nat, Raise (ValueError WhenNeither)).
Proof. split; reflexivity. Qed.

(** C9: a reaction whose [when] has a [command] and no [exitcode] passes
    the schema, so [get_reactions] builds the reaction list; when the
    pass comes to that reaction, [when['exitcode']] raises a [KeyError]
    before any process is started, and the pass ends there instead of
    deciding whether the reaction fires. *)
Theorem probe_without_exitcode (service_name : string) (pre : list json)
    (d : pydict) (post : list json) (w_ : pydict) :
  _reaction_schema (JArr (pre ++ JObj d :: post)) = true →
  dict_get "when" d = Some (JObj w_) →
  dict_has "command" w_ = true →
  dict_has "exitcode" w_ = false →
  ∃ pre' r' post',
    get_reactions service_name (JArr (pre ++ JObj d :: post)) =
      Ok (pre' ++ r' :: post') ∧
    length pre' = length pre ∧
    ∀ (H : Host) (actions : gmap string json) (paths_changed : list string)
      (w : world) (st : state),
      trigger r' paths_changed st = (st, Raise (KeyError "exitcode")) ∧
      (react_loop actions paths_changed pre' (init w) = (st, Ok tt) →
       react actions (pre' ++ r' :: post') paths_changed w =
         (st, Raise (KeyError "exitcode"))).
Proof.
  intros Hvalid Hwhen Hc He.
  destruct (get_reactions_valid service_name pre d post Hvalid)
    as (pre' & ex & post' & Hget & Hlen).
  exists pre', (JObj (dict_set "execute" ex d)), post'.
  split; [exact Hget|]. split; [exact Hlen|].
  intros H actions paths_changed w st.
  assert (trigger (JObj (dict_set "execute" ex d)) paths_changed st =
            (st, Raise (KeyError "exitcode"))) as Htrig.
  { apply (trigger_no_exitcode _ w_); [|done..]. by rewrite dict_get_set_ne. }
  split; [exact Htrig|]. intros Hpre.
  by apply (react_stops_at_trigger _ _ _ _ _ _ st).
Qed.

Lemma probe_without_exitcode_witness :
  let w_ := [("command", JStr "true")] in
  let d := [("execute", JArr [JStr "build"]); ("when", JObj w_)] in
  _reaction_schema (JArr ([] ++ JObj d :: [])) = true ∧
  dict_get "when" d = Some (JObj w_) ∧
  dict_has "command" w_ = true ∧
  dict_has "exitcode" w_ = false ∧
  ∃ pre' r' post',
    get_reactions "svc" (JArr ([] ++ JObj d :: [])) = Ok (pre' ++ r' :: post') ∧
    length pre' = length (@nil json) ∧
    ∀ (H : Host) (actions : gmap string json) (paths_changed : list string)
      (w : world) (st : state),
      trigger r' paths_changed st = (st, Raise (KeyError "exitcode")) ∧
      (react_loop actions paths_changed pre' (init w) = (st, Ok tt) →
       react actions (pre' ++ r' :: post') paths_changed w =
         (st, Raise (KeyError "exitcode"))).
Proof.
  intros w_ d.
  assert (_reaction_schema (JArr ([] ++ JObj d :: [])) = true) as Hvalid by reflexivity.
  assert (dict_get "when" d = Some (JObj w_)) as Hwhen by reflexivity.
  assert (dict_has "command" w_ = true) as Hc by reflexivity.
  assert (dict_has "exitcode" w_ = false) as He by reflexivity.
  split; [exact Hvalid|]. split; [exact Hwhen|]. split; [exact Hc|]. split; [exact He|].
  exact (probe_without_exitcode "svc" [] d [] w_ Hvalid Hwhen Hc He).
Defined.

(** ** Probes *)

Section Probes.
Context {H : Host}.

(** [subprocess.call] on a string: the string is the program. *)
Lemma call_string c st w' status :
  spawn (st_world st) [c] = (w', status) →
  let r := match status with Some z => Ok z | None => Raise OSError end in
  call (JStr c) st =
    (State w' (done_actions st) (st_trace st ++ [EvCall [c] r]), r).
Proof.
  intros Hspawn r. unfold call, bind, lift, popen, log. simpl.
  rewrite Hspawn. simpl. subst r. by destruct status.
Qed.

End Probes.

(** C10: with a [command] in the [when] of a reaction (and an
    [exitcode]), the trigger is the probe alone: the command is run and
    the reaction fires when the status is the exit code; whatever
    [files] holds and whatever paths changed, the outcome is the same. *)
Theorem probe_shadows_files `{H : Host} (d w_ : pydict) (c : string) (e : Z)
    (files : json) (paths_changed : list string) (st : state)
    (w' : world) (status : option Z) :
  dict_get "when" d = Some (JObj w_) →
  dict_get "command" w_ = Some (JStr c) →
  dict_get "exitcode" w_ = Some (JInt e) →
  dict_get "files" w_ = Some files →
  spawn (st_world st) [c] = (w', status) →
  trigger (JObj d) paths_changed st =
    (State w' (done_actions st)
       (st_trace st ++ [EvCall [c] (match status with
                                    | Some z => Ok z
                                    | None => Raise OSError
                                    end)]),
     match status with
     | Some z => Ok (Z.eqb z e)
     | None => Raise OSError
     end) ∧
  ∀ (files' : json) (paths_changed' : list string),
    trigger (JObj (dict_set "when" (JObj (dict_set "files" files' w_)) d))
      paths_changed' st =
    trigger (JObj d) paths_changed st.
Proof.
  intros Hwhen Hc He Hfiles Hspawn.
  assert (∀ d0 w0 paths,
            dict_get "when" d0 = Some (JObj w0) →
            dict_get "command" w0 = Some (JStr c) →
            dict_get "exitcode" w0 = Some (JInt e) →
            trigger (JObj d0) paths st =
              bind (call (JStr c)) (fun r => ret (py_eq_int r (JInt e))) st) as Hprobe.
  { intros d0 w0 paths H1 H2 H3.
    assert (dict_has "command" w0 = true) as Hhas by (unfold dict_has; by rewrite H2).
    unfold trigger, bind, lift. simpl.
    unfold dict_has at 1. rewrite H1. simpl. by rewrite Hhas, H2, H3. }
  assert (trigger (JObj d) paths_changed st =
            (State w' (done_actions st)
               (st_trace st ++ [EvCall [c] (match status with
                                            | Some z => Ok z
                                            | None => Raise OSError
                                            end)]),
             match status with
             | Some z => Ok (Z.eqb z e)
             | None => Raise OSError
             end)) as Hout.
  { rewrite (Hprobe d w_ paths_changed Hwhen Hc He).
    unfold bind. rewrite (call_string c st w' status Hspawn).
    by destruct status. }
  split; [exact Hout|].
  intros files' paths_changed'.
  rewrite (Hprobe _ (dict_set "files" files' w_) paths_changed'
             (dict_get_set_eq _ _ _)).
  - by rewrite (Hprobe d w_ paths_changed Hwhen Hc He).
  - by rewrite dict_get_set_ne.
  - by rewrite dict_get_set_ne.
Qed.

Lemma probe_shadows_files_witness :
  let w_ := [("command", JStr "true"); ("exitcode", JInt 0);
             ("files", JArr [JStr "app.conf"])] in
  let d := [("execute", JArr [JStr "svc.build"]); ("when", JObj w_)] in
  let st := init (H := sample_host) 0%nat in
  dict_get "when" d = Some (JObj w_) ∧
  dict_get "command" w_ = Some (JStr "true") ∧
  dict_get "exitcode" w_ = Some (JInt 0) ∧
  dict_get "files" w_ = Some (JArr [JStr "app.conf"]) ∧
  spawn (Host := sample_host) (st_world st) ["true"] = (1%nat, Some 0) ∧
  trigger (JObj d) ["readme.md"] st =
    (State (H := sample_host) 1%nat ∅ [EvCall ["true"] (Ok 0)], Ok true) ∧
  ∀ (files' : json) (paths_changed' : list string),
    trigger (JObj (dict_set "when" (JObj (dict_set "files" files' w_)) d))
      paths_changed' st =
    trigger (JObj d) ["readme.md"] st.
Proof.
  intros w_ d st.
  assert (dict_get "when" d = Some (JObj w_)) as Hwhen by reflexivity.
  assert (dict_get "command" w_ = Some (JStr "true")) as Hc by reflexivity.
  assert (dict_get "exitcode" w_ = Some (JInt 0)) as He by reflexivity.
  assert (dict_get "files" w_ = Some (JArr [JStr "app.conf"])) as Hfiles by reflexivity.
  assert (spawn (Host := sample_host) (st_world st) ["true"] = (1%nat, Some 0))
    as Hspawn by reflexivity.
  split; [exact Hwhen|]. split; [exact Hc|]. split; [exact He|].
  split; [exact Hfiles|]. split; [exact Hspawn|].
  exact (probe_shadows_files (H := sample_host) d w_ "true" 0
           (JArr [JStr "app.conf"]) ["readme.md"] st 1%nat (Some 0)
           Hwhen Hc He Hfiles Hspawn).
Defined.

(** C5 at a probe with arguments: [react] hands the whole string to
    [subprocess.call], so the process is started with the one argument
    [test -f x], where the command of an action is split at its
    whitespace. *)
Theorem probe_command_not_split :
  st_trace (fst (react (H := sample_host) sample_actions [probe_reaction] [] 0%nat)) =
    [EvCall ["test -f x"] (Ok 0); EvCheckCall "svc.build" ["make"] (Ok 0)] ∧
  split "test -f x" = ["test"; "-f"; "x"].
Proof. split; reflexivity. Qed.

(** ** Names *)

Lemma str_contains_dot_app s name : str_contains "." (s +:+ "." +:+ name) = true.
Proof.
  induction s as [|a s IH]; simpl.
  - by destruct name.
  - rewrite IH. apply orb_true_r.
Qed.

Lemma qualify_qualified service_name name :
  str_contains "." name = true → qualify service_name name = name.
Proof. intros Hdot. unfold qualify. by rewrite Hdot. Qed.

(** What [get_service_actions] does with one item of the document. *)
Lemma service_action_cases service_name service_ver k v :
  if str_contains "." k then
    service_action service_name service_ver k v =
      Raise (ValueError (KeyInvalid k service_name service_ver))
  else if _action_schema v then
    ∃ v', service_action service_name service_ver k v =
            Ok (service_name +:+ "." +:+ k, v')
  else
    service_action service_name service_ver k v = Raise ValidationError.
Proof.
  unfold service_action, validate.
  destruct (str_contains "." k); [done|].
  destruct (_action_schema v) eqn:Hvalid; [|done]. simpl.
  destruct v as [| | | | |d]; try done. simpl in *.
  apply andb_true_iff in Hvalid as [[_ Hna]%andb_true_iff _].
  unfold property, dict_has in *.
  destruct (dict_get "not_after" d) as [na|]; simpl; [|by eexists].
  destruct na as [| | | |l|]; try done. simpl in *.
  apply andb_true_iff in Hna as [[Hstr _]%andb_true_iff _].
  rewrite (qualify_all_strings _ _ Hstr). simpl. by eexists.
Qed.

(** A key with a dot among the items: the loop raises, whatever it has
    stored so far. *)
Lemma service_actions_loop_dotted service_name service_ver items acc k v :
  (k, v) ∈ items →
  str_contains "." k = true →
  ∃ e, service_actions_loop service_name service_ver items acc = Raise e ∧
       (e = ValidationError ∨
        ∃ k', str_contains "." k' = true ∧
              e = ValueError (KeyInvalid k' service_name service_ver)).
Proof.
  intros Hin Hdot. revert acc.
  induction items as [|[k0 v0] items IH]; intros acc; [by apply elem_of_nil in Hin|].
  simpl. pose proof (service_action_cases service_name service_ver k0 v0) as Hcase.
  destruct (str_contains "." k0) eqn:Hk0.
  { rewrite Hcase. simpl. eauto 6. }
  destruct (_action_schema v0).
  - destruct Hcase as [v' ->]. simpl. apply IH.
    apply elem_of_cons in Hin as [[= -> ->]|Hin]; [congruence|done].
  - rewrite Hcase. simpl. eauto.
Qed.

Lemma service_actions_loop_first service_name service_ver pre k v post acc :
  Forall (fun kv => str_contains "." (fst kv) = false ∧ _action_schema (snd kv) = true) pre →
  str_contains "." k = true →
  service_actions_loop service_name service_ver (pre ++ (k, v) :: post) acc =
    Raise (ValueError (KeyInvalid k service_name service_ver)).
Proof.
  intros Hpre Hdot. revert acc.
  induction Hpre as [|[k0 v0] pre [Hk0 Hv0] _ IH]; intros acc; simpl.
  - pose proof (service_action_cases service_name service_ver k v) as Hcase.
    rewrite Hdot in Hcase. by rewrite Hcase.
  - pose proof (service_action_cases service_name service_ver k0 v0) as Hcase.
    simpl in Hk0, Hv0. rewrite Hk0, Hv0 in Hcase. destruct Hcase as [v' ->]. simpl.
    apply IH.
Qed.

(** C7: qualifying a qualified name changes nothing, so qualifying twice
    is qualifying once; and a document of actions with a key that holds
    the separator is refused by [get_service_actions]: no catalog is
    built, and the exception is the [ValueError] 'Key ... is invalid, no
    dots allowed' for the first such key, when the items visited before
    it are in order. *)
Theorem qualify_idempotent (service_name service_ver : string) :
  (∀ name, qualify service_name (qualify service_name name) = qualify service_name name) ∧
  (∀ name, str_contains "." name = true → qualify service_name name = name) ∧
  (∀ (items : pydict) (k : string) (v : json),
     (k, v) ∈ items →
     str_contains "." k = true →
     ∃ e, get_service_actions service_name service_ver (JObj items) = Raise e ∧
          (e = ValidationError ∨
           ∃ k', str_contains "." k' = true ∧
                 e = ValueError (KeyInvalid k' service_name service_ver))) ∧
  (∀ (pre : pydict) (k : string) (v : json) (post : pydict),
     Forall (fun kv => str_contains "." (fst kv) = false ∧
                       _action_schema (snd kv) = true) pre →
     str_contains "." k = true →
     get_service_actions service_name service_ver (JObj (pre ++ (k, v) :: post)) =
       Raise (ValueError (KeyInvalid k service_name service_ver))).
Proof.
  split; [|split; [|split]].
  - intros name. unfold qualify at 2 3.
    destruct (str_contains "." name) eqn:Hdot; simpl.
    + by apply qualify_qualified.
    + apply qualify_qualified, str_contains_dot_app.
  - apply qualify_qualified.
  - intros items k v Hin Hdot. by apply (service_actions_loop_dotted _ _ _ _ k v).
  - intros pre k v post Hpre Hdot. by apply service_actions_loop_first.
Qed.

Lemma qualify_idempotent_witness :
  let items := [("build", JObj [("command", JStr "make")]);
                ("a.b", JObj [("command", JStr "make b")])] in
  qualify "svc" (qualify "svc" "build") = qualify "svc" "build" ∧
  str_contains "." "other.build" = true ∧
  qualify "svc" "other.build" = "other.build" ∧
  ("a.b", JObj [("command", JStr "make b")]) ∈ items ∧
  str_contains "." "a.b" = true ∧
  Forall (fun kv => str_contains "." (fst kv) = false ∧
                    _action_schema (snd kv) = true)
    [("build", JObj [("command", JStr "make")])] ∧
  (∃ e, get_service_actions "svc" "1" (JObj items) = Raise e ∧
        (e = ValidationError ∨
         ∃ k', str_contains "." k' = true ∧ e = ValueError (KeyInvalid k' "svc" "1"))) ∧
  get_service_actions "svc" "1"
    (JObj ([("build", JObj [("command", JStr "make")])]
           ++ ("a.b", JObj [("command", JStr "make b")]) :: [])) =
    Raise (ValueError (KeyInvalid "a.b" "svc" "1")).
Proof.
  intros items.
  assert (str_contains "." "other.build" = true) as Hq by reflexivity.
  assert (("a.b", JObj [("command", JStr "make b")]) ∈ items) as Hin.
  { apply list_elem_of_In. right. left. reflexivity. }
  assert (str_contains "." "a.b" = true) as Hdot by reflexivity.
  assert (Forall (fun kv => str_contains "." (fst kv) = false ∧
                            _action_schema (snd kv) = true)
            [("build", JObj [("command", JStr "make")])]) as Hpre.
  { constructor; [split; reflexivity|constructor]. }
  destruct (qualify_idempotent "svc" "1") as (Hidem & Hnoop & Hrefused & Hfirst).
  split; [exact (Hidem "build")|]. split; [exact Hq|].
  split; [exact (Hnoop "other.build" Hq)|]. split; [exact Hin|].
  split; [exact Hdot|]. split; [exact Hpre|].
  split; [exact (Hrefused items "a.b" _ Hin Hdot)|].
  exact (Hfirst _ "a.b" _ [] Hpre Hdot).
Defined.

(** * More of the module *)

(** ** [get_reactions] on the documents it accepts and refuses *)

Lemma strings_of_strs l : forallb is_str l = true → l = map JStr (omap as_str l).
Proof.
  induction l as [|x l IH]; simpl; [done|].
  intros [Hx Hl]%andb_true_iff. destruct x; try done. simpl. f_equal. by apply IH.
Qed.

Lemma omap_as_str_strs names : omap as_str (map JStr names) = names.
Proof. induction names as [|n names IH]; simpl; [done|]. f_equal. exact IH. Qed.

Lemma forallb_is_str_strs names : forallb is_str (map JStr names) = true.
Proof. by induction names. Qed.

Lemma unique_NoDup l : unique l = true ↔ NoDup l.
Proof.
  induction l as [|x l IH]; simpl.
  - split; [intros _; constructor|done].
  - rewrite andb_true_iff, negb_true_iff, IH, NoDup_cons. 
    assert (existsb (String.eqb x) l = false ↔ x ∉ l) as ->; [|done].
    rewrite <- not_true_iff_false, existsb_exists. split.
    + intros Hno Hin. apply Hno. exists x. split; [by apply list_elem_of_In|].
      apply String.eqb_refl.
    + intros Hno (y & Hy & ->%String.eqb_eq). by apply Hno, list_elem_of_In.
Qed.

Lemma qualify_dotted service_name name :
  str_contains "." (qualify service_name name) = true.
Proof.
  unfold qualify. destruct (str_contains "." name) eqn:Hdot; simpl; [done|].
  apply str_contains_dot_app.
Qed.

(** The reaction stored for a reaction that passed the schema, with the
    names of its [execute] list. *)
Lemma qualify_reaction_names service_name r :
  _reaction_item_schema r = true →
  ∃ d names,
    r = JObj d ∧
    dict_get "execute" d = Some (JArr (map JStr names)) ∧
    names ≠ [] ∧ NoDup names ∧
    qualify_reaction service_name r =
      Ok (JObj (dict_set "execute"
                  (JArr (map (fun name => JStr (qualify service_name name)) names)) d)).
Proof.
  destruct r as [| | | | |d]; try done. simpl.
  intros [[Hex _]%andb_true_iff Hhas]%andb_true_iff.
  unfold property, dict_has in *. unfold qualify_reaction. simpl.
  destruct (dict_get "execute" d) as [ex|] eqn:Hget; [|done]. simpl.
  destruct ex as [| | | |l|]; try done. simpl in *.
  apply andb_true_iff in Hex as [[Hstr Hmin]%andb_true_iff Huniq].
  exists d, (omap as_str l). split; [done|].
  split; [by rewrite <- strings_of_strs|].
  split.
  { intros Hnil. rewrite (strings_of_strs l Hstr), Hnil in Hmin. done. }
  split; [by apply unique_NoDup|].
  by rewrite (qualify_all_strings _ _ Hstr).
Qed.

Lemma reactions_loop_names service_name l :
  forallb _reaction_item_schema l = true →
  ∃ out,
    reactions_loop service_name l = Ok out ∧
    Forall2 (fun r r' =>
               ∃ d d' names,
                 r = JObj d ∧ r' = JObj d' ∧
                 dict_get "execute" d = Some (JArr (map JStr names)) ∧
                 dict_get "execute" d' =
                   Some (JArr (map (fun name => JStr (qualify service_name name)) names)) ∧
                 ∀ k, k ≠ "execute" → dict_get k d' = dict_get k d) l out.
Proof.
  induction l as [|r l IH]; simpl.
  - intros _. exists []. by split.
  - intros [Hr Hl]%andb_true_iff.
    destruct (qualify_reaction_names service_name r Hr)
      as (d & names & -> & Hex & _ & _ & ->).
    destruct (IH Hl) as (out & -> & Hall). simpl.
    eexists. split; [reflexivity|]. constructor; [|done].
    eexists d, _, names. repeat split; try done.
    + apply dict_get_set_eq.
    + intros k Hk. apply dict_get_set_ne. congruence.
Qed.

(** X1: [get_reactions] on a document that passes the schema returns the
    reactions in the order of the document, one for one; each is the
    reaction of the document with every name of its [execute] list
    qualified, and every other key as it was. *)
Theorem get_reactions_shape (service_name : string) (l : list json) :
  _reaction_schema (JArr l) = true →
  ∃ out,
    get_reactions service_name (JArr l) = Ok out ∧
    Forall2 (fun r r' =>
               ∃ d d' names,
                 r = JObj d ∧ r' = JObj d' ∧
                 dict_get "execute" d = Some (JArr (map JStr names)) ∧
                 dict_get "execute" d' =
                   Some (JArr (map (fun name => JStr (qualify service_name name)) names)) ∧
                 ∀ k, k ≠ "execute" → dict_get k d' = dict_get k d) l out.
Proof.
  intros Hvalid. unfold get_reactions, validate. rewrite Hvalid. simpl in *.
  by apply reactions_loop_names.
Qed.

Lemma get_reactions_shape_witness :
  let l := [JObj [("execute", JArr [JStr "build"; JStr "other.sync"]);
                  ("when", JObj [("files", JArr [JStr "*.conf"])])];
            JObj [("execute", JArr [JStr "deploy"])]] in
  _reaction_schema (JArr l) = true ∧
  ∃ out,
    get_reactions "svc" (JArr l) = Ok out ∧
    Forall2 (fun r r' =>
               ∃ d d' names,
                 r = JObj d ∧ r' = JObj d' ∧
                 dict_get "execute" d = Some (JArr (map JStr names)) ∧
                 dict_get "execute" d' =
                   Some (JArr (map (fun name => JStr (qualify "svc" name)) names)) ∧
                 ∀ k, k ≠ "execute" → dict_get k d' = dict_get k d) l out.
Proof.
  intros l.
  assert (_reaction_schema (JArr l) = true) as Hvalid by reflexivity.
  split; [exact Hvalid|]. exact (get_reactions_shape "svc" l Hvalid).
Defined.

Lemma forallb_middle_false {A} (f : A → bool) pre x post :
  f x = false → forallb f (pre ++ x :: post) = false.
Proof.
  intros Hx. rewrite forallb_app. simpl. rewrite Hx. apply andb_false_r.
Qed.

(** X2: a reaction whose [execute] is missing, is empty, or names an
    action twice makes [get_reactions] raise the [ValidationError],
    wherever the reaction stands in the document. *)
Theorem get_reactions_refuses (service_name : string) (pre : list json)
    (d : pydict) (post : list json) :
  dict_get "execute" d = None ∨
  dict_get "execute" d = Some (JArr []) ∨
  (∃ names, dict_get "execute" d = Some (JArr (map JStr names)) ∧ ¬ NoDup names) →
  get_reactions service_name (JArr (pre ++ JObj d :: post)) = Raise ValidationError.
Proof.
  intros Hbad. unfold get_reactions, validate.
  assert (_reaction_schema (JArr (pre ++ JObj d :: post)) = false) as ->; [|done].
  simpl. apply forallb_middle_false. simpl. unfold property, dict_has.
  destruct Hbad as [->|[->|(names & -> & Hdup)]]; simpl.
  - apply andb_false_r.
  - done.
  - rewrite omap_as_str_strs.
    destruct (unique names) eqn:Hu; [by apply unique_NoDup in Hu|].
    by rewrite !andb_false_r.
Qed.

Lemma get_reactions_refuses_witness :
  let d := [("execute", JArr (map JStr ["build"; "build"]))] in
  (dict_get "execute" d = None ∨
   dict_get "execute" d = Some (JArr []) ∨
   (∃ names, dict_get "execute" d = Some (JArr (map JStr names)) ∧ ¬ NoDup names)) ∧
  get_reactions "svc" (JArr ([JObj [("execute", JArr [JStr "deploy"])]] ++ JObj d :: []))
    = Raise ValidationError.
Proof.
  intros d.
  assert (dict_get "execute" d = None ∨
          dict_get "execute" d = Some (JArr []) ∨
          (∃ names, dict_get "execute" d = Some (JArr (map JStr names)) ∧ ¬ NoDup names))
    as Hbad.
  { right. right. exists ["build"; "build"]. split; [reflexivity|].
    intros Hnd. apply NoDup_cons in Hnd as [Hnot _]. apply Hnot. left. }
  split; [exact Hbad|].
  exact (get_reactions_refuses "svc" [JObj [("execute", JArr [JStr "deploy"])]] d [] Hbad).
Defined.

(** X3: whatever the document, every reference in the reaction list
    [get_reactions] returns is a qualified name, and no [execute] list
    is empty. *)
Theorem get_reactions_qualified (service_name : string) (doc : json)
    (out : list json) (r : json) :
  get_reactions service_name doc = Ok out →
  r ∈ out →
  ∃ names,
    names ≠ [] ∧
    execute_of r = Ok (map JStr names) ∧
    Forall (fun name => str_contains "." name = true) names.
Proof.
  intros Hget Hin. unfold get_reactions, validate in Hget.
  destruct (_reaction_schema doc) eqn:Hvalid; [|done]. simpl in Hget.
  destruct doc as [| | | |l|]; try done. simpl in *.
  destruct (reactions_loop_names service_name l Hvalid) as (out' & Hloop & Hall).
  rewrite Hloop in Hget. injection Hget as ->.
  apply list_elem_of_lookup in Hin as [i Hi].
  destruct (Forall2_lookup_r _ _ _ _ _ Hall Hi)
    as (r0 & Hr0 & d & d' & names & -> & -> & Hex & Hex' & _).
  assert (_reaction_item_schema (JObj d) = true) as Hitem.
  { rewrite forallb_forall in Hvalid. apply Hvalid, list_elem_of_In.
    by eapply list_elem_of_lookup_2. }
  destruct (qualify_reaction_names service_name _ Hitem)
    as (d0 & names0 & [= <-] & Hex0 & Hne & _ & _).
  rewrite Hex in Hex0. injection Hex0 as Hnames%(f_equal (omap as_str)).
  rewrite !omap_as_str_strs in Hnames. subst names0.
  exists (map (qualify service_name) names). split.
  { by destruct names. }
  split.
  - unfold execute_of. simpl. rewrite Hex'. simpl. by rewrite map_map.
  - apply Forall_forall. intros name (n & -> & _)%list_elem_of_fmap.
    apply qualify_dotted.
Qed.

Lemma get_reactions_qualified_witness :
  let doc := JArr [JObj [("execute", JArr [JStr "build"; JStr "other.sync"])]] in
  let r := JObj [("execute", JArr [JStr "svc.build"; JStr "other.sync"])] in
  get_reactions "svc" doc = Ok [r] ∧
  r ∈ [r] ∧
  ∃ names,
    names ≠ [] ∧
    execute_of r = Ok (map JStr names) ∧
    Forall (fun name => str_contains "." name = true) names.
Proof.
  intros doc r.
  assert (get_reactions "svc" doc = Ok [r]) as Hget by reflexivity.
  assert (r ∈ [r]) as Hin by (apply list_elem_of_In; left; reflexivity).
  split; [exact Hget|]. split; [exact Hin|].
  exact (get_reactions_qualified "svc" doc [r] r Hget Hin).
Defined.

(** X4: the names of an [execute] list are checked for duplicates before
    they are qualified, so the list [get_reactions] returns can hold a
    reference twice: a bare name and the same name written with the
    service in front pass the schema together and come out equal. *)
Theorem get_reactions_can_repeat (service_name name : string) :
  str_contains "." name = false →
  get_reactions service_name
    (JArr [JObj [("execute",
                  JArr [JStr name; JStr (service_name +:+ "." +:+ name)])]]) =
  Ok [JObj [("execute",
             JArr [JStr (service_name +:+ "." +:+ name);
                   JStr (service_name +:+ "." +:+ name)])]].
Proof.
  intros Hbare.
  pose proof (str_contains_dot_app service_name name) as Hdot.
  assert (qualify service_name name = service_name +:+ "." +:+ name) as Hq
    by (unfold qualify; by rewrite Hbare).
  revert Hdot Hq. generalize (service_name +:+ "." +:+ name). intros q Hdot Hq.
  assert (String.eqb name q = false) as Hne.
  { apply String.eqb_neq. intros ->. congruence. }
  unfold get_reactions, validate. simpl.
  unfold property, dict_has, string_array. simpl. rewrite Hne. simpl.
  by rewrite Hq, (qualify_qualified _ _ Hdot).
Qed.

Lemma get_reactions_can_repeat_witness :
  str_contains "." "build" = false ∧
  get_reactions "svc"
    (JArr [JObj [("execute", JArr [JStr "build"; JStr ("svc" +:+ "." +:+ "build")])]]) =
  Ok [JObj [("execute",
             JArr [JStr ("svc" +:+ "." +:+ "build");
                   JStr ("svc" +:+ "." +:+ "build")])]].
Proof.
  assert (str_contains "." "build" = false) as Hbare by reflexivity.
  split; [exact Hbare|]. exact (get_reactions_can_repeat "svc" "build" Hbare).
Defined.

(** ** [get_service_actions] on the documents it accepts and refuses *)

Lemma append_inj_r (s a b : string) : s +:+ a = s +:+ b → a = b.
Proof. induction s as [|c s IH]; simpl; [done|]. intros [= Heq]. by apply IH. Qed.

(** The entry stored for an item that is in order. *)
Lemma service_action_built service_name service_ver k d :
  str_contains "." k = false →
  _action_schema (JObj d) = true →
  ∃ d',
    service_action service_name service_ver k (JObj d) =
      Ok (service_name +:+ "." +:+ k, JObj d') ∧
    (∀ k', k' ≠ "not_after" → dict_get k' d' = dict_get k' d) ∧
    match dict_get "not_after" d with
    | None => dict_get "not_after" d' = None
    | Some na =>
        ∃ names,
          na = JArr (map JStr names) ∧
          dict_get "not_after" d' =
            Some (JArr (map (fun name => JStr (qualify service_name name)) names))
    end.
Proof.
  intros Hk Hvalid. unfold service_action, validate. rewrite Hk, Hvalid. simpl in *.
  apply andb_true_iff in Hvalid as [[_ Hna]%andb_true_iff _].
  unfold property, dict_has in *.
  destruct (dict_get "not_after" d) as [na|] eqn:Hget; simpl.
  - destruct na as [| | | |l|]; try done. simpl in *.
    apply andb_true_iff in Hna as [[Hstr _]%andb_true_iff _].
    rewrite (qualify_all_strings _ _ Hstr). simpl.
    eexists. split; [reflexivity|]. split.
    + intros k' Hk'. apply dict_get_set_ne. congruence.
    + exists (omap as_str l). split; [by rewrite <- strings_of_strs|].
      apply dict_get_set_eq.
  - exists d. split; [done|]. by split.
Qed.

Lemma service_actions_loop_keeps service_name service_ver items acc m name :
  service_actions_loop service_name service_ver items acc = Ok m →
  is_Some (acc !! name) → is_Some (m !! name).
Proof.
  revert acc. induction items as [|[k v] items IH]; intros acc; simpl.
  - by intros [= ->].
  - destruct (service_action service_name service_ver k v) as [[n v']|]; [|done]. simpl.
    intros Hloop Hacc. apply (IH _ Hloop).
    destruct (decide (n = name)) as [->|Hne].
    + rewrite lookup_insert_eq. eauto.
    + by rewrite lookup_insert_ne.
Qed.

Lemma service_actions_loop_ok service_name service_ver items acc m :
  service_actions_loop service_name service_ver items acc = Ok m →
  Forall (fun kv => str_contains "." (fst kv) = false ∧
                    _action_schema (snd kv) = true) items.
Proof.
  revert acc. induction items as [|[k v] items IH]; intros acc; simpl; [by constructor|].
  pose proof (service_action_cases service_name service_ver k v) as Hcase.
  destruct (str_contains "." k) eqn:Hk; [by rewrite Hcase|].
  destruct (_action_schema v) eqn:Hv; [|by rewrite Hcase].
  destruct Hcase as [v' ->]. simpl. intros Hloop.
  constructor; [done|]. by apply (IH _ Hloop).
Qed.

Lemma service_actions_loop_has service_name service_ver items acc m k v :
  service_actions_loop service_name service_ver items acc = Ok m →
  (k, v) ∈ items →
  is_Some (m !! (service_name +:+ "." +:+ k)).
Proof.
  revert acc. induction items as [|[k0 v0] items IH]; intros acc; simpl.
  - intros _ Hin. by apply elem_of_nil in Hin.
  - pose proof (service_action_cases service_name service_ver k0 v0) as Hcase.
    destruct (str_contains "." k0); [by rewrite Hcase|].
    destruct (_action_schema v0); [|by rewrite Hcase].
    destruct Hcase as [v' ->]. simpl.
    intros Hloop [[= -> ->]|Hin]%elem_of_cons.
    + apply (service_actions_loop_keeps _ _ _ _ _ _ Hloop).
      rewrite lookup_insert_eq. eauto.
    + by apply (IH _ Hloop).
Qed.

Lemma service_actions_loop_built service_name service_ver items acc :
  Forall (fun kv => str_contains "." (fst kv) = false ∧
                    _action_schema (snd kv) = true) items →
  NoDup (map fst items) →
  ∃ m,
    service_actions_loop service_name service_ver items acc = Ok m ∧
    (∀ k v, (k, v) ∈ items →
       ∃ v', service_action service_name service_ver k v =
               Ok (service_name +:+ "." +:+ k, v') ∧
             m !! (service_name +:+ "." +:+ k) = Some v') ∧
    (∀ name, (∀ k, k ∈ map fst items → name ≠ service_name +:+ "." +:+ k) →
       m !! name = acc !! name).
Proof.
  intros Hok. revert acc.
  induction Hok as [|[k0 v0] items [Hk0 Hv0] _ IH]; intros acc Hnd; simpl in *.
  - exists acc. split; [done|]. split; [|done].
    intros k v Hin. by apply elem_of_nil in Hin.
  - apply NoDup_cons in Hnd as [Hfresh Hnd].
    pose proof (service_action_cases service_name service_ver k0 v0) as Hcase.
    rewrite Hk0, Hv0 in Hcase. destruct Hcase as [v0' Hact]. rewrite Hact. simpl.
    destruct (IH (<[service_name +:+ "." +:+ k0 := v0']> acc) Hnd)
      as (m & -> & Hin & Hout).
    exists m. split; [done|]. split.
    + intros k v [[= -> ->]|Hkv]%elem_of_cons; [|by apply Hin].
      exists v0'. split; [done|]. rewrite Hout.
      * apply lookup_insert_eq.
      * intros k Hk Heq. apply append_inj_r, append_inj_r in Heq. by subst.
    + intros name Hname. rewrite Hout.
      * apply lookup_insert_ne. intros Heq. apply (Hname k0); [left|done].
      * intros k Hk. apply Hname. by right.
Qed.

(** X5: [get_service_actions] returns a catalog exactly when no key of
    the document holds a dot and every item passes the schema. *)
Theorem get_service_actions_ok_iff (service_name service_ver : string)
    (items : pydict) :
  (∃ m, get_service_actions service_name service_ver (JObj items) = Ok m) ↔
  Forall (fun kv => str_contains "." (fst kv) = false ∧
                    _action_schema (snd kv) = true) items.
Proof.
  split.
  - intros [m Hget]. by apply (service_actions_loop_ok _ _ _ _ _ Hget).
  - intros Hok. simpl. generalize (∅ : gmap string json).
    induction Hok as [|[k v] items [Hk Hv] _ IH]; intros acc; simpl in *; [by eexists|].
    pose proof (service_action_cases service_name service_ver k v) as Hcase.
    rewrite Hk, Hv in Hcase. destruct Hcase as [v' ->]. simpl. apply IH.
Qed.

(** X6: for a document whose keys are distinct and free of dots and
    whose items pass the schema, the catalog has one entry for each key,
    under the key with the service in front, and no other; the entry is
    the item, with the names of its [not_after] qualified and everything
    else as it was. *)
Theorem get_service_actions_catalog (service_name service_ver : string)
    (items : pydict) :
  Forall (fun kv => str_contains "." (fst kv) = false ∧
                    _action_schema (snd kv) = true) items →
  NoDup (map fst items) →
  ∃ m,
    get_service_actions service_name service_ver (JObj items) = Ok m ∧
    (∀ name, is_Some (m !! name) →
       ∃ k, k ∈ map fst items ∧ name = service_name +:+ "." +:+ k) ∧
    (∀ k v, (k, v) ∈ items →
       ∃ d d',
         v = JObj d ∧
         m !! (service_name +:+ "." +:+ k) = Some (JObj d') ∧
         (∀ k', k' ≠ "not_after" → dict_get k' d' = dict_get k' d) ∧
         match dict_get "not_after" d with
         | None => dict_get "not_after" d' = None
         | Some na =>
             ∃ names,
               na = JArr (map JStr names) ∧
               dict_get "not_after" d' =
                 Some (JArr (map (fun name => JStr (qualify service_name name)) names))
         end).
Proof.
  intros Hok Hnd. simpl.
  destruct (service_actions_loop_built service_name service_ver items ∅ Hok Hnd)
    as (m & Hloop & Hin & Hout).
  exists m. split; [exact Hloop|]. split.
  - intros name Hsome.
    destruct (decide (name ∈ map (fun k => service_name +:+ "." +:+ k) (map fst items)))
      as [Hex|Hno].
    { apply list_elem_of_fmap in Hex as (k & -> & Hk). eauto. }
    rewrite Hout in Hsome; [by destruct Hsome|].
    intros k Hk ->. apply Hno. apply list_elem_of_fmap. eauto.
  - intros k v Hkv. destruct (Hin k v Hkv) as (v' & Hact & Hm).
    rewrite Forall_forall in Hok. destruct (Hok _ Hkv) as [Hk Hv]. simpl in *.
    destruct v as [| | | | |d]; try done.
    destruct (service_action_built service_name service_ver k d Hk Hv)
      as (d' & Hact' & Hsame & Hna).
    rewrite Hact in Hact'. injection Hact' as ->.
    by exists d, d'.
Qed.

Lemma get_service_actions_ok_iff_witness :
  let items := [("build", JObj [("command", JStr "make")]);
                ("deploy", JObj [("command", JStr "make deploy");
                                 ("not_after", JArr [JStr "rollback"])])] in
  Forall (fun kv => str_contains "." (fst kv) = false ∧
                    _action_schema (snd kv) = true) items ∧
  (∃ m, get_service_actions "svc" "1" (JObj items) = Ok m).
Proof.
  intros items.
  assert (Forall (fun kv => str_contains "." (fst kv) = false ∧
                            _action_schema (snd kv) = true) items) as Hok.
  { repeat constructor. }
  split; [exact Hok|].
  exact (proj2 (get_service_actions_ok_iff "svc" "1" items) Hok).
Defined.

Lemma get_service_actions_catalog_witness :
  let items := [("build", JObj [("command", JStr "make")]);
                ("deploy", JObj [("command", JStr "make deploy");
                                 ("not_after", JArr [JStr "rollback"])])] in
  Forall (fun kv => str_contains "." (fst kv) = false ∧
                    _action_schema (snd kv) = true) items ∧
  NoDup (map fst items) ∧
  ∃ m,
    get_service_actions "svc" "1" (JObj items) = Ok m ∧
    (∀ name, is_Some (m !! name) →
       ∃ k, k ∈ map fst items ∧ name = "svc" +:+ "." +:+ k) ∧
    (∀ k v, (k, v) ∈ items →
       ∃ d d',
         v = JObj d ∧
         m !! ("svc" +:+ "." +:+ k) = Some (JObj d') ∧
         (∀ k', k' ≠ "not_after" → dict_get k' d' = dict_get k' d) ∧
         match dict_get "not_after" d with
         | None => dict_get "not_after" d' = None
         | Some na =>
             ∃ names,
               na = JArr (map JStr names) ∧
               dict_get "not_after" d' =
                 Some (JArr (map (fun name => JStr (qualify "svc" name)) names))
         end).
Proof.
  intros items.
  assert (Forall (fun kv => str_contains "." (fst kv) = false ∧
                            _action_schema (snd kv) = true) items) as Hok.
  { repeat constructor. }
  assert (NoDup (map fst items)) as Hnd.
  { simpl. apply NoDup_cons. split; [|apply NoDup_singleton].
    intros Hin%list_elem_of_singleton. discriminate. }
  split; [exact Hok|]. split; [exact Hnd|].
  exact (get_service_actions_catalog "svc" "1" items Hok Hnd).
Defined.

(** X7: the catalog and the reaction list of one service fit together:
    a key of the action document, written bare in an [execute] list, is
    qualified by [get_reactions] to a name that [react] finds in the
    catalog [get_service_actions] built. *)
Theorem local_reference_resolves (service_name service_ver : string)
    (items : pydict) (m : gmap string json) (k : string) (v : json) :
  get_service_actions service_name service_ver (JObj items) = Ok m →
  (k, v) ∈ items →
  qualify service_name k = service_name +:+ "." +:+ k ∧
  ∃ item, find_action m (JStr (qualify service_name k)) =
            Ok (Some (qualify service_name k, item)).
Proof.
  intros Hget Hin. simpl in Hget.
  pose proof (service_actions_loop_ok _ _ _ _ _ Hget) as Hok.
  rewrite Forall_forall in Hok. destruct (Hok _ Hin) as [Hk _]. simpl in Hk.
  assert (qualify service_name k = service_name +:+ "." +:+ k) as Hq
    by (unfold qualify; by rewrite Hk).
  split; [exact Hq|].
  destruct (service_actions_loop_has _ _ _ _ _ _ _ Hget Hin) as [item Hitem].
  exists item. simpl. by rewrite Hq, Hitem.
Qed.

Lemma local_reference_resolves_witness :
  let items := [("build", JObj [("command", JStr "make")])] in
  let m : gmap string json := <["svc.build" := JObj [("command", JStr "make")]]> ∅ in
  get_service_actions "svc" "1" (JObj items) = Ok m ∧
  ("build", JObj [("command", JStr "make")]) ∈ items ∧
  qualify "svc" "build" = "svc" +:+ "." +:+ "build" ∧
  ∃ item, find_action m (JStr (qualify "svc" "build")) =
            Ok (Some (qualify "svc" "build", item)).
Proof.
  intros items m.
  assert (get_service_actions "svc" "1" (JObj items) = Ok m) as Hget by reflexivity.
  assert (("build", JObj [("command", JStr "make")]) ∈ items) as Hin by left.
  split; [exact Hget|]. split; [exact Hin|].
  exact (local_reference_resolves "svc" "1" items m "build" _ Hget Hin).
Defined.

(** ** Triggers *)

Section FileTriggers.
Context {H : Host}.

Lemma fnmatch_filter_nil paths pat :
  fnmatch_filter paths pat = [] ↔ existsb (fun p => fnmatch p pat) paths = false.
Proof.
  unfold fnmatch_filter. induction paths as [|p paths IH]; simpl; [done|].
  rewrite filter_cons. destruct (fnmatch p pat) eqn:Hm; simpl.
  - destruct (decide (true = true)); [|done]. split; discriminate.
  - destruct (decide (false = true)); [done|]. exact IH.
Qed.

Lemma checkfiles_loop_strs pats paths :
  checkfiles_loop (map JStr pats) paths =
    Ok (existsb (fun pat => existsb (fun p => fnmatch p pat) paths) pats).
Proof.
  induction pats as [|pat pats IH]; simpl; [done|].
  destruct (fnmatch_filter paths pat) as [|x l] eqn:Hf.
  - apply fnmatch_filter_nil in Hf. by rewrite Hf, IH.
  - destruct (existsb (fun p => fnmatch p pat) paths) eqn:He; [done|].
    apply fnmatch_filter_nil in He. congruence.
Qed.

(** [subprocess.call] of the probe: what [trigger] does with a [when]
    that has a command and an exit code. *)
Lemma trigger_probe d w_ cmd ec paths st :
  dict_get "when" d = Some (JObj w_) →
  dict_get "command" w_ = Some cmd →
  dict_get "exitcode" w_ = Some ec →
  trigger (JObj d) paths st =
    bind (call cmd) (fun r => ret (py_eq_int r ec)) st.
Proof.
  intros H1 H2 H3.
  assert (dict_has "command" w_ = true) as Hhas by (unfold dict_has; by rewrite H2).
  unfold trigger, bind, lift. simpl.
  unfold dict_has at 1. rewrite H1. simpl. by rewrite Hhas, H2, H3.
Qed.

End FileTriggers.

(** X8: [_checkfiles] on a list of patterns answers [True] exactly when
    one of the patterns matches one of the changed paths; with no
    pattern, or no changed path, the answer is [False]. *)
Theorem checkfiles_exists `{H : Host} (pats paths_changed : list string) :
  _checkfiles (JArr (map JStr pats)) paths_changed =
    Ok (existsb (fun pat => existsb (fun p => fnmatch p pat) paths_changed) pats) ∧
  _checkfiles (JArr []) paths_changed = Ok false ∧
  _checkfiles (JArr (map JStr pats)) [] = Ok false.
Proof.
  assert (∀ paths, _checkfiles (JArr (map JStr pats)) paths =
            Ok (existsb (fun pat => existsb (fun p => fnmatch p pat) paths) pats))
    as Hall by (intros paths; apply checkfiles_loop_strs).
  split; [apply Hall|]. split; [reflexivity|].
  rewrite Hall. f_equal. clear Hall. induction pats as [|pat pats IH]; [done|exact IH].
Qed.

(** X9: a reaction whose [when] has [files] and no [command] is decided
    by the patterns alone: no process is started and the state is left
    as it was, and the reaction fires exactly when a pattern matches a
    changed path. *)
Theorem file_trigger `{H : Host} (d w_ : pydict) (pats paths_changed : list string)
    (st : state) :
  dict_get "when" d = Some (JObj w_) →
  dict_has "command" w_ = false →
  dict_get "files" w_ = Some (JArr (map JStr pats)) →
  trigger (JObj d) paths_changed st =
    (st, Ok (existsb (fun pat => existsb (fun p => fnmatch p pat) paths_changed) pats)).
Proof.
  intros Hwhen Hc Hfiles.
  assert (dict_has "files" w_ = true) as Hhas by (unfold dict_has; by rewrite Hfiles).
  unfold trigger, bind, lift. simpl.
  unfold dict_has at 1. rewrite Hwhen. simpl. rewrite Hc, Hhas, Hfiles.
  unfold _checkfiles. simpl. by rewrite checkfiles_loop_strs.
Qed.

Lemma file_trigger_witness :
  let w_ := [("files", JArr (map JStr ["app.conf"; "db.conf"]))] in
  let d := [("execute", JArr [JStr "svc.rollback"]); ("when", JObj w_)] in
  let st := init (H := sample_host) 0%nat in
  dict_get "when" d = Some (JObj w_) ∧
  dict_has "command" w_ = false ∧
  dict_get "files" w_ = Some (JArr (map JStr ["app.conf"; "db.conf"])) ∧
  trigger (H := sample_host) (JObj d) ["readme.md"; "db.conf"] st = (st, Ok true).
Proof.
  intros w_ d st.
  assert (dict_get "when" d = Some (JObj w_)) as Hwhen by reflexivity.
  assert (dict_has "command" w_ = false) as Hc by reflexivity.
  assert (dict_get "files" w_ = Some (JArr (map JStr ["app.conf"; "db.conf"])))
    as Hfiles by reflexivity.
  split; [exact Hwhen|]. split; [exact Hc|]. split; [exact Hfiles|].
  exact (file_trigger (H := sample_host) d w_ ["app.conf"; "db.conf"]
           ["readme.md"; "db.conf"] st Hwhen Hc Hfiles).
Defined.

(** X10: a probe that exits with a status other than the exit code of
    the [when] is no error: the reaction is passed over, none of its
    actions is looked at, and the pass goes on with [done_actions] as it
    was. *)
Theorem probe_mismatch_skips `{H : Host} (actions : gmap string json)
    (paths_changed : list string) (d w_ : pydict) (c : string) (e z : Z)
    (st : state) (w' : world) :
  dict_get "when" d = Some (JObj w_) →
  dict_get "command" w_ = Some (JStr c) →
  dict_get "exitcode" w_ = Some (JInt e) →
  spawn (st_world st) [c] = (w', Some z) →
  z ≠ e →
  react_reaction actions paths_changed (JObj d) st =
    (State w' (done_actions st) (st_trace st ++ [EvCall [c] (Ok z)]), Ok tt).
Proof.
  intros Hwhen Hc He Hspawn Hne.
  unfold react_reaction. unfold bind at 1.
  rewrite (trigger_probe d w_ _ _ paths_changed st Hwhen Hc He).
  unfold bind at 1. rewrite (call_string c st w' (Some z) Hspawn). simpl.
  unfold ret at 1. by apply Z.eqb_neq in Hne as ->.
Qed.

Lemma probe_mismatch_skips_witness :
  let w_ := [("command", JStr "false"); ("exitcode", JInt 0)] in
  let d := [("execute", JArr [JStr "svc.build"]); ("when", JObj w_)] in
  let st := init (H := sample_host) 0%nat in
  dict_get "when" d = Some (JObj w_) ∧
  dict_get "command" w_ = Some (JStr "false") ∧
  dict_get "exitcode" w_ = Some (JInt 0) ∧
  spawn (Host := sample_host) (st_world st) ["false"] = (1%nat, Some 1) ∧
  1 ≠ 0 ∧
  react_reaction (H := sample_host) sample_actions [] (JObj d) st =
    (State (H := sample_host) 1%nat (done_actions st)
       (st_trace st ++ [EvCall ["false"] (Ok 1)]), Ok tt).
Proof.
  intros w_ d st.
  assert (dict_get "when" d = Some (JObj w_)) as Hwhen by reflexivity.
  assert (dict_get "command" w_ = Some (JStr "false")) as Hc by reflexivity.
  assert (dict_get "exitcode" w_ = Some (JInt 0)) as He by reflexivity.
  assert (spawn (Host := sample_host) (st_world st) ["false"] = (1%nat, Some 1))
    as Hspawn by reflexivity.
  assert (1 ≠ 0) as Hne by lia.
  split; [exact Hwhen|]. split; [exact Hc|]. split; [exact He|].
  split; [exact Hspawn|]. split; [exact Hne|].
  exact (probe_mismatch_skips (H := sample_host) sample_actions [] d w_ "false" 0 1
           st 1%nat Hwhen Hc He Hspawn Hne).
Defined.

(** X11: a probe that cannot be started is not a reaction that does not
    fire: the [OSError] ends the pass, with nothing run for the
    reaction or after it. *)
Theorem probe_launch_failure `{H : Host} (actions : gmap string json)
    (paths_changed : list string) (w : world) (pre : list json) (d w_ : pydict)
    (post : list json) (c : string) (ec : json) (st : state) (w' : world) :
  react_loop actions paths_changed pre (init w) = (st, Ok tt) →
  dict_get "when" d = Some (JObj w_) →
  dict_get "command" w_ = Some (JStr c) →
  dict_get "exitcode" w_ = Some ec →
  spawn (st_world st) [c] = (w', None) →
  react actions (pre ++ JObj d :: post) paths_changed w =
    (State w' (done_actions st) (st_trace st ++ [EvCall [c] (Raise OSError)]),
     Raise OSError).
Proof.
  intros Hpre Hwhen Hc He Hspawn.
  apply (react_stops_at_trigger _ _ _ _ _ _ st); [done|].
  rewrite (trigger_probe d w_ _ _ paths_changed st Hwhen Hc He).
  unfold bind. by rewrite (call_string c st w' None Hspawn).
Qed.

Lemma probe_launch_failure_witness :
  let w_ := [("command", JStr "nowhere"); ("exitcode", JInt 0)] in
  let d := [("execute", JArr [JStr "svc.build"]); ("when", JObj w_)] in
  let st := init (H := sample_host) 0%nat in
  react_loop (H := sample_host) sample_actions [] [] (init (H := sample_host) 0%nat) =
    (st, Ok tt) ∧
  dict_get "when" d = Some (JObj w_) ∧
  dict_get "command" w_ = Some (JStr "nowhere") ∧
  dict_get "exitcode" w_ = Some (JInt 0) ∧
  spawn (Host := sample_host) (st_world st) ["nowhere"] = (1%nat, None) ∧
  react (H := sample_host) sample_actions
    ([] ++ JObj d :: [JObj [("execute", JArr [JStr "svc.deploy"])]]) [] 0%nat =
    (State (H := sample_host) 1%nat (done_actions st)
       (st_trace st ++ [EvCall ["nowhere"] (Raise OSError)]), Raise OSError).
Proof.
  intros w_ d st.
  assert (react_loop (H := sample_host) sample_actions [] [] (init (H := sample_host) 0%nat) =
    (st, Ok tt))
    as Hpre by reflexivity.
  assert (dict_get "when" d = Some (JObj w_)) as Hwhen by reflexivity.
  assert (dict_get "command" w_ = Some (JStr "nowhere")) as Hc by reflexivity.
  assert (dict_get "exitcode" w_ = Some (JInt 0)) as He by reflexivity.
  assert (spawn (Host := sample_host) (st_world st) ["nowhere"] = (1%nat, None))
    as Hspawn by reflexivity.
  split; [exact Hpre|]. split; [exact Hwhen|]. split; [exact Hc|].
  split; [exact He|]. split; [exact Hspawn|].
  exact (probe_launch_failure (H := sample_host) sample_actions [] 0%nat [] d w_
           [JObj [("execute", JArr [JStr "svc.deploy"])]] "nowhere" (JInt 0) st 1%nat
           Hpre Hwhen Hc He Hspawn).
Defined.

(** ** What a pass leaves behind *)

Section Outcomes.
Context {H : Host}.

Lemma all_done_invariant actions :
  pass_invariant actions all_done (fun _ _ => True).
Proof.
  split.
  - done.
  - intros st st' (Hd & Hok & Hpr) Hdone [Htr|(argv & x & Htr)]; unfold all_done;
      rewrite Htr, Hdone; [done|].
    rewrite executed_app. simpl. rewrite app_nil_r. split; [done|]. split.
    + intros a argv' r [Hin|Hin%list_elem_of_singleton]%elem_of_app; [eauto|done].
    + intros c z [Hin|Hin%list_elem_of_singleton]%elem_of_app; [by eapply Hpr|done].
  - intros action st st' r (Hd & Hok & Hpr) Hout.
    destruct Hout as [r|name item na c w' r _ _ _ _ _ _ _].
    { by destruct r. }
    destruct r as [[|p|p]|e]; simpl; try done.
    unfold all_done. simpl. rewrite executed_app. simpl. split; [|split].
    + rewrite list_to_set_app_L, Hd. simpl. by rewrite (right_id_L ∅ (∪)).
    + intros a argv r [Hin|[= -> -> ->]%list_elem_of_singleton]%elem_of_app; eauto.
    + intros c' z [Hin|Hin%list_elem_of_singleton]%elem_of_app; [by eapply Hpr|done].
Qed.


Lemma grown_from_invariant actions st0 :
  pass_invariant actions (grown_from st0) (fun st _ => grown_from st0 st).
Proof.
  split.
  - done.
  - intros st st' [Hsub Hext] Hd Htr. split; [by rewrite Hd|].
    by apply (inv_trigger _ _ _ (extends_invariant actions (st_trace st0)) st st').
  - intros action st st' r [Hsub Hext] Hout.
    pose proof (inv_action _ _ _ (extends_invariant actions (st_trace st0))
                  action st st' r Hext Hout) as Hext'.
    assert (done_actions st ⊆ done_actions st') as Hsub'.
    { destruct Hout as [r|name item na c w' r _ _ _ _ _ _ _]; [done|].
      destruct r as [[|p|p]|e]; simpl; try done. apply union_subseteq_l. }
    by destruct r; (split; [etrans|]).
Qed.

End Outcomes.

(** X12: when a pass ends normally, [done_actions] is exactly the set of
    the actions whose command was invoked, every one of these commands
    exited with 0, and nothing was printed. *)
Theorem react_completed `{H : Host} (actions : gmap string json)
    (reactions : list json) (paths_changed : list string) (w : world) (st : state) :
  react actions reactions paths_changed w = (st, Ok tt) →
  done_actions st = list_to_set (executed (st_trace st)) ∧
  (∀ a argv r, EvCheckCall a argv r ∈ st_trace st → r = Ok 0) ∧
  (∀ c z, EvPrint c z ∉ st_trace st).
Proof.
  intros Hrun.
  assert (all_done (init w)) as Hstart.
  { split; [done|]. split.
    - intros a argv r Hin. by apply elem_of_nil in Hin.
    - intros c z. apply not_elem_of_nil. }
  exact (loop_invariant actions _ _ (all_done_invariant actions)
           paths_changed reactions (init w) st (Ok tt) Hstart Hrun).
Qed.

Lemma react_completed_witness :
  let st := State (H := sample_host) 1%nat {["svc.build"]}
              [EvCheckCall "svc.build" ["make"] (Ok 0)] in
  react (H := sample_host) sample_actions
    [JObj [("execute", JArr [JStr "svc.build"])]] [] 0%nat = (st, Ok tt) ∧
  done_actions st = list_to_set (executed (st_trace st)) ∧
  (∀ a argv r, EvCheckCall a argv r ∈ st_trace st → r = Ok 0) ∧
  (∀ c z, EvPrint c z ∉ st_trace st).
Proof.
  intros st.
  assert (react (H := sample_host) sample_actions
            [JObj [("execute", JArr [JStr "svc.build"])]] [] 0%nat = (st, Ok tt)) as Hrun
    by (vm_compute; reflexivity).
  split; [exact Hrun|].
  exact (react_completed (H := sample_host) sample_actions _ [] 0%nat st Hrun).
Defined.



(** X14: from any moment of a pass to its end, normal or not,
    [done_actions] only grows and the trace is only added to. *)
Theorem react_grows `{H : Host} (actions : gmap string json)
    (paths_changed : list string) (w : world) (pre : list json) (reaction : json)
    (xs : list json) (action : json) (ys post : list json) (st : state) :
  reaches actions paths_changed w pre reaction xs action ys st →
  let out := react actions (pre ++ reaction :: post) paths_changed w in
  done_actions st ⊆ done_actions (fst out) ∧
  ∃ tl, st_trace (fst out) = st_trace st ++ tl.
Proof.
  intros Hreach out. subst out.
  rewrite (react_from _ _ _ _ _ _ _ _ _ post Hreach).
  destruct (bind _ _ st) as [st' r] eqn:Hrun.
  pose proof (grown_from_invariant actions st) as HI.
  assert (grown_from st st) as Hstart.
  { split; [done|]. exists []. by rewrite app_nil_r. }
  pose proof (hoare_bind _ _ _ _ _ _
                (action_invariant actions _ _ HI reaction action)
                (fun _ => hoare_bind _ _ _ _ _ _
                            (execute_invariant actions _ _ HI reaction ys)
                            (fun _ => loop_invariant actions _ _ HI paths_changed post))
                st st' r Hstart Hrun) as Hpost.
  simpl. by destruct r.
Qed.

Lemma react_grows_witness :
  let reaction := JObj [("execute", JArr [JStr "svc.build"; JStr "svc.check";
                                         JStr "svc.deploy"])] in
  let st := State (H := sample_host) 1%nat {["svc.build"]}
              [EvCheckCall "svc.build" ["make"] (Ok 0)] in
  let out := react (H := sample_host) sample_actions ([] ++ reaction :: []) [] 0%nat in
  reaches (H := sample_host) sample_actions [] 0%nat [] reaction
    [JStr "svc.build"] (JStr "svc.check") [JStr "svc.deploy"] st ∧
  done_actions st ⊆ done_actions (fst out) ∧
  ∃ tl, st_trace (fst out) = st_trace st ++ tl.
Proof.
  intros reaction st out.
  assert (reaches (H := sample_host) sample_actions [] 0%nat [] reaction
            [JStr "svc.build"] (JStr "svc.check") [JStr "svc.deploy"] st) as Hreach.
  { split; [reflexivity|].
    exists (init (H := sample_host) 0%nat), (init (H := sample_host) 0%nat).
    repeat split; vm_compute; reflexivity. }
  split; [exact Hreach|].
  exact (react_grows (H := sample_host) sample_actions [] 0%nat [] reaction _ _ _ []
           st Hreach).
Defined.

(** ** Commands that cannot be started *)

Section Unstarted.
Context {H : Host}.

(** The call of [react_action] ends with an exception that is not a
    [CalledProcessError]: nothing is printed. *)
Lemma react_action_unstarted actions reaction name item na c st w' e :
  actions !! name = Some item →
  name ∉ done_actions st →
  not_after_of item = Ok na →
  (size (done_actions st ∩ na) =? 0)%nat = true →
  py_getitem item "command" = Ok (JStr c) →
  popen (split c) st = (State w' (done_actions st) (st_trace st), Ok (Raise e)) →
  e = OSError ∨ e = IndexError →
  react_action actions reaction (JStr name) st =
    (State w' (done_actions st)
       (st_trace st ++ [EvCheckCall name (split c) (Raise e)]), Raise e).
Proof.
  intros Hitem Hnot Hna Hdisj Hcmd Hp He.
  unfold react_action, bind, lift, get_done. simpl. rewrite Hitem.
  destruct (decide (name ∉ done_actions st)); [|done].
  rewrite Hna, Hdisj, Hcmd. simpl.
  unfold check_call, bind. rewrite Hp. simpl.
  by destruct He as [-> | ->].
Qed.

End Unstarted.

(** X15: when the program of an action cannot be started, the pass ends
    with the [OSError] at that reference: the exception is not caught,
    no line is printed, and the action is not added to [done_actions]. *)
Theorem action_launch_failure `{H : Host} (actions : gmap string json)
    (paths_changed : list string) (w : world) (pre : list json) (reaction : json)
    (xs : list json) (name : string) (ys post : list json) (st : state)
    (item : json) (na : gset string) (c : string) (w' : world) :
  reaches actions paths_changed w pre reaction xs (JStr name) ys st →
  actions !! name = Some item →
  name ∉ done_actions st →
  not_after_of item = Ok na →
  (size (done_actions st ∩ na) =? 0)%nat = true →
  py_getitem item "command" = Ok (JStr c) →
  split c ≠ [] →
  spawn (st_world st) (split c) = (w', None) →
  react actions (pre ++ reaction :: post) paths_changed w =
    (State w' (done_actions st)
       (st_trace st ++ [EvCheckCall name (split c) (Raise OSError)]),
     Raise OSError).
Proof.
  intros Hreach Hitem Hnot Hna Hdisj Hcmd Hargv Hspawn.
  apply (react_abort actions paths_changed w pre reaction xs (JStr name) ys st post);
    [done|].
  apply (react_action_unstarted actions reaction name item na c st w' OSError);
    try done; [|by left].
  unfold popen. destruct (split c); [done|]. by rewrite Hspawn.
Qed.

(** X16: an action whose command is empty, or only whitespace, has no
    program to start: the pass ends with the [IndexError] at that
    reference, without starting a process. *)
Theorem action_empty_command `{H : Host} (actions : gmap string json)
    (paths_changed : list string) (w : world) (pre : list json) (reaction : json)
    (xs : list json) (name : string) (ys post : list json) (st : state)
    (item : json) (na : gset string) (c : string) :
  reaches actions paths_changed w pre reaction xs (JStr name) ys st →
  actions !! name = Some item →
  name ∉ done_actions st →
  not_after_of item = Ok na →
  (size (done_actions st ∩ na) =? 0)%nat = true →
  py_getitem item "command" = Ok (JStr c) →
  split c = [] →
  react actions (pre ++ reaction :: post) paths_changed w =
    (State (st_world st) (done_actions st)
       (st_trace st ++ [EvCheckCall name [] (Raise IndexError)]),
     Raise IndexError).
Proof.
  intros Hreach Hitem Hnot Hna Hdisj Hcmd Hargv.
  apply (react_abort actions paths_changed w pre reaction xs (JStr name) ys st post);
    [done|].
  rewrite <- Hargv.
  apply (react_action_unstarted actions reaction name item na c st (st_world st)
           IndexError); try done; [|by right].
  unfold popen. rewrite Hargv. by destruct st.
Qed.

Lemma action_launch_failure_witness :
  let reaction := JObj [("execute", JArr [JStr "svc.ghost"; JStr "svc.blank"])] in
  let item := JObj [("command", JStr "nowhere --now")] in
  let st := init (H := sample_host) 0%nat in
  reaches (H := sample_host) odd_actions [] 0%nat [] reaction
    [] (JStr "svc.ghost") [JStr "svc.blank"] st ∧
  odd_actions !! "svc.ghost" = Some item ∧
  ("svc.ghost" ∉ done_actions st) ∧
  not_after_of item = Ok ∅ ∧
  (size (done_actions st ∩ ∅) =? 0)%nat = true ∧
  py_getitem item "command" = Ok (JStr "nowhere --now") ∧
  split "nowhere --now" ≠ [] ∧
  spawn (Host := sample_host) (st_world st) (split "nowhere --now") = (1%nat, None) ∧
  react (H := sample_host) odd_actions ([] ++ reaction :: []) [] 0%nat =
    (State (H := sample_host) 1%nat (done_actions st)
       (st_trace st ++ [EvCheckCall "svc.ghost" (split "nowhere --now") (Raise OSError)]),
     Raise OSError).
Proof.
  intros reaction item st.
  assert (reaches (H := sample_host) odd_actions [] 0%nat [] reaction
            [] (JStr "svc.ghost") [JStr "svc.blank"] st) as Hreach.
  { split; [reflexivity|]. exists st, st. repeat split; reflexivity. }
  assert (odd_actions !! "svc.ghost" = Some item) as Hitem by (vm_compute; reflexivity).
  assert ("svc.ghost" ∉ done_actions st) as Hnot by (vm_compute; discriminate).
  assert (not_after_of item = Ok ∅) as Hna by reflexivity.
  assert ((size (done_actions st ∩ ∅) =? 0)%nat = true) as Hdisj
    by (vm_compute; reflexivity).
  assert (py_getitem item "command" = Ok (JStr "nowhere --now")) as Hcmd by reflexivity.
  assert (split "nowhere --now" ≠ []) as Hargv by (vm_compute; discriminate).
  assert (spawn (Host := sample_host) (st_world st) (split "nowhere --now")
          = (1%nat, None)) as Hspawn by reflexivity.
  split; [exact Hreach|]. split; [exact Hitem|]. split; [exact Hnot|].
  split; [exact Hna|]. split; [exact Hdisj|]. split; [exact Hcmd|].
  split; [exact Hargv|]. split; [exact Hspawn|].
  exact (action_launch_failure (H := sample_host) odd_actions [] 0%nat [] reaction
           [] "svc.ghost" _ [] st item ∅ "nowhere --now" 1%nat
           Hreach Hitem Hnot Hna Hdisj Hcmd Hargv Hspawn).
Defined.

Lemma action_empty_command_witness :
  let reaction := JObj [("execute", JArr [JStr "svc.blank"; JStr "svc.ghost"])] in
  let item := JObj [("command", JStr "   ")] in
  let st := init (H := sample_host) 0%nat in
  reaches (H := sample_host) odd_actions [] 0%nat [] reaction
    [] (JStr "svc.blank") [JStr "svc.ghost"] st ∧
  odd_actions !! "svc.blank" = Some item ∧
  ("svc.blank" ∉ done_actions st) ∧
  not_after_of item = Ok ∅ ∧
  (size (done_actions st ∩ ∅) =? 0)%nat = true ∧
  py_getitem item "command" = Ok (JStr "   ") ∧
  split "   " = [] ∧
  react (H := sample_host) odd_actions ([] ++ reaction :: []) [] 0%nat =
    (State (H := sample_host) (st_world st) (done_actions st)
       (st_trace st ++ [EvCheckCall "svc.blank" [] (Raise IndexError)]),
     Raise IndexError).
Proof.
  intros reaction item st.
  assert (reaches (H := sample_host) odd_actions [] 0%nat [] reaction
            [] (JStr "svc.blank") [JStr "svc.ghost"] st) as Hreach.
  { split; [reflexivity|]. exists st, st. repeat split; reflexivity. }
  assert (odd_actions !! "svc.blank" = Some item) as Hitem by (vm_compute; reflexivity).
  assert ("svc.blank" ∉ done_actions st) as Hnot by (vm_compute; discriminate).
  assert (not_after_of item = Ok ∅) as Hna by reflexivity.
  assert ((size (done_actions st ∩ ∅) =? 0)%nat = true) as Hdisj
    by (vm_compute; reflexivity).
  assert (py_getitem item "command" = Ok (JStr "   ")) as Hcmd by reflexivity.
  assert (split "   " = []) as Hargv by reflexivity.
  split; [exact Hreach|]. split; [exact Hitem|]. split; [exact Hnot|].
  split; [exact Hna|]. split; [exact Hdisj|]. split; [exact Hcmd|].
  split; [exact Hargv|].
  exact (action_empty_command (H := sample_host) odd_actions [] 0%nat [] reaction
           [] "svc.blank" _ [] st item ∅ "   "
           Hreach Hitem Hnot Hna Hdisj Hcmd Hargv).
Defined.

(** ** The order of the commands *)

Section DeclaredOrder.
Context {H : Host}.

Lemma omap_as_str_cons a l : omap as_str (a :: l) = omap as_str [a] ++ omap as_str l.
Proof. simpl. by destruct (as_str a). Qed.

Lemma declared_cons x reactions :
  declared (x :: reactions) = declared [x] ++ declared reactions.
Proof. unfold declared. simpl. by rewrite app_nil_r. Qed.

Lemma action_order actions reaction action st st' r :
  react_action actions reaction action st = (st', r) →
  ∃ tl, st_trace st' = st_trace st ++ tl ∧
        executed tl `sublist_of` omap as_str [action].
Proof.
  intros Hout%react_action_outcome.
  destruct Hout as [r|name item na c w' r -> _ _ _ _ _ _].
  { exists []. rewrite app_nil_r. split; [done|]. apply sublist_nil_l. }
  destruct r as [[|p|p]|e]; simpl; eexists; (split; [reflexivity|]); simpl; done.
Qed.

Lemma execute_order actions reaction execute st st' r :
  execute_loop actions reaction execute st = (st', r) →
  ∃ tl, st_trace st' = st_trace st ++ tl ∧
        executed tl `sublist_of` omap as_str execute.
Proof.
  revert st. induction execute as [|a execute IH]; intros st Hrun; simpl in Hrun.
  - injection Hrun as <- <-. exists []. by rewrite app_nil_r.
  - apply bind_inv in Hrun as [(st1 & [] & Ha & Hrest)|(e & Ha & ->)].
    + apply action_order in Ha as (tl1 & Htl1 & Hs1).
      apply IH in Hrest as (tl2 & Htl2 & Hs2).
      exists (tl1 ++ tl2). rewrite Htl2, Htl1, app_assoc. split; [done|].
      rewrite executed_app, omap_as_str_cons.
      by apply sublist_app.
    + apply action_order in Ha as (tl1 & Htl1 & Hs1).
      exists tl1. split; [done|]. rewrite omap_as_str_cons.
      by apply sublist_inserts_r.
Qed.

Lemma reaction_order actions paths reaction st st' r :
  react_reaction actions paths reaction st = (st', r) →
  ∃ tl, st_trace st' = st_trace st ++ tl ∧
        executed tl `sublist_of` declared [reaction].
Proof.
  unfold react_reaction. intros Hrun.
  assert (∀ sta stb x, trigger reaction paths sta = (stb, x) →
            ∃ tl, st_trace stb = st_trace sta ++ tl ∧ executed tl = []) as Htrig.
  { intros sta stb x Ht. apply trigger_outcome in Ht as [_ [->|(argv & y & ->)]].
    - exists []. by rewrite app_nil_r.
    - by eexists. }
  apply bind_inv in Hrun as [(st1 & fires & Ht & Hrest)|(e & Ht & ->)].
  - apply Htrig in Ht as (tl1 & Htl1 & He1).
    destruct fires.
    + unfold declared, execute_of, rbind. simpl. rewrite app_nil_r.
      apply bind_inv in Hrest as [(? & ex & [-> Hex]%lift_inv & Hrest)|(? & [-> ?]%lift_inv & ->)].
      * rewrite <- Hex.
        apply bind_inv in Hrest as [(? & execute & [-> Hit]%lift_inv & Hrest)|(? & [-> ?]%lift_inv & ->)].
        -- rewrite <- Hit. apply execute_order in Hrest as (tl2 & Htl2 & Hs2).
           exists (tl1 ++ tl2). rewrite Htl2, Htl1, app_assoc. split; [done|].
           by rewrite executed_app, He1.
        -- exists tl1. split; [done|]. rewrite He1. apply sublist_nil_l.
      * exists tl1. split; [done|]. rewrite He1. apply sublist_nil_l.
    + injection Hrest as <- <-. exists tl1. split; [done|].
      rewrite He1. apply sublist_nil_l.
  - apply Htrig in Ht as (tl1 & Htl1 & He1).
    exists tl1. split; [done|]. rewrite He1. apply sublist_nil_l.
Qed.

Lemma loop_order actions paths reactions st st' r :
  react_loop actions paths reactions st = (st', r) →
  ∃ tl, st_trace st' = st_trace st ++ tl ∧
        executed tl `sublist_of` declared reactions.
Proof.
  revert st. induction reactions as [|x reactions IH]; intros st Hrun; simpl in Hrun.
  - injection Hrun as <- <-. exists []. by rewrite app_nil_r.
  - rewrite declared_cons.
    apply bind_inv in Hrun as [(st1 & [] & Hx & Hrest)|(e & Hx & ->)].
    + apply reaction_order in Hx as (tl1 & Htl1 & Hs1).
      apply IH in Hrest as (tl2 & Htl2 & Hs2).
      exists (tl1 ++ tl2). rewrite Htl2, Htl1, app_assoc. split; [done|].
      rewrite executed_app. by apply sublist_app.
    + apply reaction_order in Hx as (tl1 & Htl1 & Hs1).
      exists tl1. split; [done|]. by apply sublist_inserts_r.
Qed.

End DeclaredOrder.

(** X17: the commands a pass invokes come in the order of the reaction
    list and, within a reaction, of its [execute] list: the actions
    invoked are a subsequence of the references as they are written. *)
Theorem react_declared_order `{H : Host} (actions : gmap string json)
    (reactions : list json) (paths_changed : list string) (w : world) :
  executed (st_trace (fst (react actions reactions paths_changed w)))
    `sublist_of` declared reactions.
Proof.
  unfold react.
  destruct (react_loop actions paths_changed reactions (init w)) as [st r] eqn:Hrun.
  apply loop_order in Hrun as (tl & Htl & Hs). simpl in *. by rewrite Htl.
Qed.

(** ** From the builders to the pass *)

Lemma built_action_of_item service_name service_ver k v n v' :
  service_action service_name service_ver k v = Ok (n, v') →
  built_action v' = true.
Proof.
  intros Hact.
  pose proof (service_action_cases service_name service_ver k v) as Hcase.
  destruct (str_contains "." k) eqn:Hk; [congruence|].
  destruct (_action_schema v) eqn:Hv; [|congruence].
  destruct v as [| | | | |d]; try done.
  destruct (service_action_built service_name service_ver k d Hk Hv)
    as (d' & Hact' & Hsame & Hna).
  rewrite Hact in Hact'. injection Hact' as -> ->.
  simpl in *. unfold property, dict_has in *.
  rewrite !Hsame by done.
  apply andb_true_iff in Hv as [[Hc _]%andb_true_iff Hhas].
  rewrite Hc, Hhas.
  destruct (dict_get "not_after" d) as [na|].
  - destruct Hna as (names & _ & ->). simpl.
    rewrite andb_true_r. clear. by induction names.
  - by rewrite Hna.
Qed.

Lemma service_actions_loop_entries service_name service_ver items acc m :
  service_actions_loop service_name service_ver items acc = Ok m →
  (∀ name item, acc !! name = Some item → built_action item = true) →
  ∀ name item, m !! name = Some item → built_action item = true.
Proof.
  revert acc. induction items as [|[k v] items IH]; intros acc; simpl.
  - by intros [= ->].
  - destruct (service_action service_name service_ver k v) as [[n v']|] eqn:Hact;
      [|done]. simpl.
    intros Hloop Hacc. apply (IH _ Hloop).
    intros name item. destruct (decide (n = name)) as [->|Hne].
    + rewrite lookup_insert_eq. intros [= <-].
      by apply (built_action_of_item _ _ _ _ _ _ Hact).
    + rewrite lookup_insert_ne by done. apply Hacc.
Qed.

(** X18: what the builders return has the shape the pass reads: every
    action of the catalog is a dict with a string [command] and, if it
    has a [not_after], a list of strings; every reaction is a dict with
    a list of strings as [execute] and, if it has a [when], one that
    passes the schema. *)
Theorem builders_shape (service_name service_ver : string) :
  (∀ doc m name item,
     get_service_actions service_name service_ver doc = Ok m →
     m !! name = Some item →
     built_action item = true) ∧
  (∀ doc out reaction,
     get_reactions service_name doc = Ok out →
     reaction ∈ out →
     built_reaction reaction = true).
Proof.
  split.
  - intros doc m name item Hget. destruct doc as [| | | | |items]; try done.
    simpl in Hget. apply (service_actions_loop_entries _ _ _ _ _ Hget).
    intros n v Hin. by rewrite lookup_empty in Hin.
  - intros doc out reaction Hget Hin. unfold get_reactions, validate in Hget.
    destruct (_reaction_schema doc) eqn:Hvalid; [|done]. simpl in Hget.
    destruct doc as [| | | |l|]; try done. simpl in *.
    destruct (reactions_loop_names service_name l Hvalid) as (out' & Hloop & Hall).
    rewrite Hloop in Hget. injection Hget as ->.
    apply list_elem_of_lookup in Hin as [i Hi].
    destruct (Forall2_lookup_r _ _ _ _ _ Hall Hi)
      as (r0 & Hr0 & d & d' & names & -> & -> & Hex & Hex' & Hsame).
    assert (_reaction_item_schema (JObj d) = true) as Hitem.
    { rewrite forallb_forall in Hvalid. apply Hvalid, list_elem_of_In.
      by eapply list_elem_of_lookup_2. }
    simpl in *. unfold property, dict_has in *.
    rewrite Hex', (Hsame "when") by done. simpl.
    apply andb_true_iff in Hitem as [[_ ->]%andb_true_iff _].
    rewrite !andb_true_r. clear. by induction names.
Qed.

Lemma builders_shape_witness :
  let doc := JObj [("deploy", JObj [("command", JStr "make deploy");
                                    ("not_after", JArr [JStr "rollback"])])] in
  let item := JObj [("command", JStr "make deploy");
                    ("not_after", JArr [JStr "svc.rollback"])] in
  let m : gmap string json := <["svc.deploy" := item]> ∅ in
  let rdoc := JArr [JObj [("execute", JArr [JStr "deploy"])]] in
  let reaction := JObj [("execute", JArr [JStr "svc.deploy"])] in
  get_service_actions "svc" "1" doc = Ok m ∧
  m !! "svc.deploy" = Some item ∧
  built_action item = true ∧
  get_reactions "svc" rdoc = Ok [reaction] ∧
  reaction ∈ [reaction] ∧
  built_reaction reaction = true.
Proof.
  intros doc item m rdoc reaction.
  assert (get_service_actions "svc" "1" doc = Ok m) as Hget by reflexivity.
  assert (m !! "svc.deploy" = Some item) as Hm by (vm_compute; reflexivity).
  assert (get_reactions "svc" rdoc = Ok [reaction]) as Hr by reflexivity.
  assert (reaction ∈ [reaction]) as Hin by left.
  destruct (builders_shape "svc" "1") as [Ha Hb].
  split; [exact Hget|]. split; [exact Hm|].
  split; [exact (Ha doc m "svc.deploy" item Hget Hm)|].
  split; [exact Hr|]. split; [exact Hin|].
  exact (Hb rdoc [reaction] reaction Hr Hin).
Defined.

Section Errors.
Context {H : Host}.











End Errors.


